(** * sysfs_addrxlate: the two address-translation sysfs attributes

    A shallow embedding of
    [solutions_to_assgn/ch12/sysfs_addrxlate/sysfs_addrxlate.c]:
    the [show] and [store] callbacks of the attributes [addrxlate_kva2pa]
    and [addrxlate_pa2kva], together with the kernel library routines they
    call ([strncpy], [strlen], [kstrtoull]/[kstrtoul], [snprintf],
    [mutex_lock_interruptible], [mutex_unlock]).

    Integers are [Z] with the wrap-around of the C types written out, the
    20-byte local array [s_addr] is a [list ascii], and the callbacks run in
    a small state monad whose outcomes also record undefined behaviour (an
    access outside [s_addr]) and a sleep on a mutex that is never released.
    [phys_addr_t] is taken to be as wide as [unsigned long], as the casts
    and format strings of the source assume.  Logging ([pr_info], [pr_warn],
    [pr_debug], [MSG]) has no effect on the state and is left out. *)

From Stdlib Require Import ZArith List Ascii String Bool Lia.
Import ListNotations.

Local Open Scope Z_scope.

(** ** Build configuration *)

(** [BITS_PER_LONG]: the source only compiles for these two values. *)
Inductive word_size : Type := W32 | W64.

Definition BITS_PER_LONG (w : word_size) : Z :=
  match w with W32 => 32 | W64 => 64 end.

(** Conversion to [addr_t] ([u32] or [u64]). *)
Definition to_addr_t (w : word_size) (z : Z) : Z := z mod 2 ^ BITS_PER_LONG w.

(** What the kernel headers supply: the build's word size, the constants
    [PAGE_OFFSET] and [high_memory], whether [CONFIG_X86] is set, and the
    translation primitives [virt_to_phys], [phys_to_virt] and
    [virt_addr_valid].  They are not part of the module's source, so the
    callbacks take them as parameters. *)
Record platform : Type := mkPlatform {
  bits : word_size;
  PAGE_OFFSET : Z;
  high_memory : Z;
  CONFIG_X86 : bool;
  virt_addr_valid : Z -> bool;
  virt_to_phys : Z -> Z;
  phys_to_virt : Z -> Z
}.

(** Error numbers of [include/uapi/asm-generic/errno-base.h], [errno.h]
    and [include/linux/errno.h]. *)
Definition EFAULT : Z := 14.
Definition EINVAL : Z := 22.
Definition ERANGE : Z := 34.
Definition EINTR : Z := 4.
Definition ERESTARTSYS : Z := 512.

Definition ADDR_MAXLEN : Z := 20.

(** ** Characters and C strings *)

Definition NUL : ascii := "000"%char.
Definition LF : ascii := "010"%char.

Definition code (c : ascii) : Z := Z.of_N (N_of_ascii c).

(** [s[i]] for a C string held as the list of its characters before the
    terminating NUL: reading the terminator yields NUL. *)
Definition char_at (s : list ascii) (i : nat) : ascii := nth i s NUL.

(** [memset (a, c, n)] on an array of exactly [n] bytes. *)
Definition memset (c : ascii) (n : nat) : list ascii := repeat c n.

(** The [n] bytes [strncpy] writes: the characters of [src] up to its first
    NUL, then NUL padding.  [src] lists the bytes at the source address;
    sysfs hands the callback a buffer that is NUL-terminated after the last
    written byte, so running off the list meets that terminator. *)
Fixpoint strncpy_bytes (n : nat) (src : list ascii) : list ascii :=
  match n with
  | O => []
  | S n' =>
      match src with
      | [] => repeat NUL (S n')
      | c :: src' =>
          if Ascii.eqb c NUL then repeat NUL (S n')
          else c :: strncpy_bytes n' src'
      end
  end.

Definition strncpy (dest src : list ascii) (n : nat) : list ascii :=
  strncpy_bytes n src ++ skipn n dest.

(** [strlen] over an array: [None] when no NUL lies inside the array, in
    which case the C routine reads past its end. *)
Fixpoint strlen (a : list ascii) : option nat :=
  match a with
  | [] => None
  | c :: a' => if Ascii.eqb c NUL then Some O else option_map S (strlen a')
  end.

(** [a[i] = c]: [None] when [i] is outside the array. *)
Fixpoint array_set_nat (a : list ascii) (i : nat) (c : ascii) : option (list ascii) :=
  match a, i with
  | [], _ => None
  | _ :: a', O => Some (c :: a')
  | x :: a', S i' => option_map (cons x) (array_set_nat a' i' c)
  end.

Definition array_set (a : list ascii) (i : Z) (c : ascii) : option (list ascii) :=
  if i <? 0 then None else array_set_nat a (Z.to_nat i) c.

(** The C string stored in an array: its bytes before the first NUL. *)
Fixpoint cstring (a : list ascii) : list ascii :=
  match a with
  | [] => []
  | c :: a' => if Ascii.eqb c NUL then [] else c :: cstring a'
  end.

(** ** [lib/kstrtox.c] *)

Definition ULLONG_MAX : Z := 2 ^ 64 - 1.

Definition _tolower (c : Z) : Z := Z.lor c 32.

Definition isxdigit (c : Z) : bool :=
  ((48 <=? c) && (c <=? 57)) || ((97 <=? c) && (c <=? 102))
  || ((65 <=? c) && (c <=? 70)).

(** Result of [_parse_integer]: the accumulated value, the number of
    characters consumed and the [KSTRTOX_OVERFLOW] bit of the return
    value. *)
Record parsed : Type := mkParsed {
  p_res : Z;
  p_rv : nat;
  p_overflow : bool
}.

Definition _parse_integer_fixup_radix (s : list ascii) (base : Z)
  : list ascii * Z :=
  let base' :=
    if base =? 0 then
      if code (char_at s 0) =? 48 then
        if (_tolower (code (char_at s 1)) =? 120)
           && isxdigit (code (char_at s 2))
        then 16 else 8
      else 10
    else base in
  if (base' =? 16) && (code (char_at s 0) =? 48)
     && (_tolower (code (char_at s 1)) =? 120)
  then (skipn 2 s, base')
  else (s, base').

(** The value of the character [c] as a digit, as the loop of
    [_parse_integer] decodes it; [None] where the loop breaks. *)
Definition digit_value (c : Z) : option Z :=
  let lc := _tolower c in
  if (48 <=? c) && (c <=? 57) then Some (c - 48)
  else if (97 <=? lc) && (lc <=? 102) then Some (lc - 97 + 10)
  else None.

(** The digit loop of [_parse_integer]; the terminating NUL (end of the
    list) is not a digit and ends the loop. *)
Fixpoint _parse_integer_from (s : list ascii) (base : Z) (acc : parsed) : parsed :=
  match s with
  | [] => acc
  | ch :: s' =>
      match digit_value (code ch) with
      | None => acc
      | Some val =>
          if val >=? base then acc
          else
            let res := p_res acc in
            let ovf :=
              if negb (Z.land res (Z.shiftl 15 60) =? 0)
              then res >? (ULLONG_MAX - val) / base
              else false in
            _parse_integer_from s' base
              (mkParsed ((res * base + val) mod 2 ^ 64)
                        (S (p_rv acc))
                        (p_overflow acc || ovf))
      end
  end.

Definition _parse_integer (s : list ascii) (base : Z) : parsed :=
  _parse_integer_from s base (mkParsed 0 0 false).

(** [_kstrtoull] and [kstrtoull]: the status and the new content of [*res]
    (left as it was on failure). *)
Definition _kstrtoull (s : list ascii) (base : Z) (res : Z) : Z * Z :=
  let (s1, base1) := _parse_integer_fixup_radix s base in
  let p := _parse_integer s1 base1 in
  if p_overflow p then (- ERANGE, res)
  else if Nat.eqb (p_rv p) 0 then (- EINVAL, res)
  else
    let s2 := skipn (p_rv p) s1 in
    let s3 := if Ascii.eqb (char_at s2 0) LF then skipn 1 s2 else s2 in
    if negb (Ascii.eqb (char_at s3 0) NUL) then (- EINVAL, res)
    else (0, p_res p).

Definition kstrtoull (s : list ascii) (base : Z) (res : Z) : Z * Z :=
  if Ascii.eqb (char_at s 0) "+"%char
  then _kstrtoull (skipn 1 s) base res
  else _kstrtoull s base res.

(** [kstrtoul] where [unsigned long] is narrower than [unsigned long long]
    ([_kstrtoul]). *)
Definition kstrtoul (s : list ascii) (base : Z) (res : Z) : Z * Z :=
  let (rv, tmp) := kstrtoull s base res in
  if rv <? 0 then (rv, res)
  else if negb (tmp =? tmp mod 2 ^ 32) then (- ERANGE, res)
  else (0, tmp).

(** The conditional compilation of lines 140-144 and 221-225. *)
Definition kstrto (w : word_size) (s : list ascii) (res : Z) : Z * Z :=
  match w with
  | W32 => kstrtoul s 0 res
  | W64 => kstrtoull s 0 res
  end.

Definition txt (s : string) : list ascii := list_ascii_of_string s.

(** The same text followed by a line feed, as [echo] writes it. *)
Definition line (s : string) : list ascii := txt s ++ [LF].

(** ** [snprintf] with the format ["0x" FMTSPC "\n"] *)

Definition hexchar (d : Z) : ascii := nth (Z.to_nat d) (txt "0123456789abcdef") "0"%char.

(** The [n] low hexadecimal digits of [v], most significant first: what
    [%08x] prints for a [u32] and [%016llx] for a [u64]. *)
Fixpoint hex_digits (n : nat) (v : Z) : list ascii :=
  match n with
  | O => []
  | S n' => hex_digits n' (v / 16) ++ [hexchar (v mod 16)]
  end.

Definition FMTSPC_width (w : word_size) : nat :=
  match w with W32 => 8%nat | W64 => 16%nat end.

Definition fmt_addr (w : word_size) (v : Z) : list ascii :=
  txt "0x" ++ hex_digits (FMTSPC_width w) v ++ [LF].

(** [snprintf (buf, size, ...)]: the text left in [buf] (at most [size - 1]
    characters before the NUL) and the returned length of the whole
    formatted text. *)
Definition snprintf (size : Z) (formatted : list ascii) : list ascii * Z :=
  (firstn (Z.to_nat (size - 1)) formatted, Z.of_nat (List.length formatted)).

(** ** Module state and the execution monad *)

(** The four module-level objects: [mtx1], [mtx2] ([true] when locked),
    [gxlated_addr_kva2pa] and [gxlated_addr_pa2kva]. *)
Record state : Type := mkState {
  mtx1 : bool;
  mtx2 : bool;
  gxlated_addr_kva2pa : Z;
  gxlated_addr_pa2kva : Z
}.

(** Static initialisation: [DEFINE_MUTEX] leaves both mutexes unlocked and
    the two globals are zero. *)
Definition init_state : state := mkState false false 0 0.

Inductive mutex_id : Type := Mtx1 | Mtx2.

Definition locked (m : mutex_id) (st : state) : bool :=
  match m with Mtx1 => mtx1 st | Mtx2 => mtx2 st end.

Definition set_locked (m : mutex_id) (b : bool) (st : state) : state :=
  match m with
  | Mtx1 => mkState b (mtx2 st) (gxlated_addr_kva2pa st) (gxlated_addr_pa2kva st)
  | Mtx2 => mkState (mtx1 st) b (gxlated_addr_kva2pa st) (gxlated_addr_pa2kva st)
  end.

Definition set_kva2pa (v : Z) (st : state) : state :=
  mkState (mtx1 st) (mtx2 st) v (gxlated_addr_pa2kva st).

Definition set_pa2kva (v : Z) (st : state) : state :=
  mkState (mtx1 st) (mtx2 st) (gxlated_addr_kva2pa st) v.

(** Accesses outside the local array [s_addr]. *)
Inductive undefined_behaviour : Type :=
| ReadPastEnd                  (* strlen found no NUL in the array *)
| WriteOutside (index : Z).    (* s_addr[index] with index outside 0..19 *)

Inductive outcome (A : Type) : Type :=
| Done (a : A) (st : state)                       (* the callback returned *)
| Undefined (u : undefined_behaviour) (st : state)
| Blocked.                    (* asleep on a mutex that nobody will unlock *)

Arguments Done {A} a st.
Arguments Undefined {A} u st.
Arguments Blocked {A}.

Definition kernel (A : Type) : Type := state -> outcome A.

Definition return_ {A : Type} (a : A) : kernel A := fun st => Done a st.

Definition bind {A B : Type} (m : kernel A) (f : A -> kernel B) : kernel B :=
  fun st =>
    match m st with
    | Done a st' => f a st'
    | Undefined u st' => Undefined u st'
    | Blocked => Blocked
    end.

Notation "x <- m ;; k" := (bind m (fun x => k))
  (at level 61, m at next level, right associativity).
Notation "m ;;; k" := (bind m (fun _ => k))
  (at level 61, right associativity).

(** [mutex_lock_interruptible]: a free mutex is taken at once and 0 is
    returned.  A locked mutex makes the caller sleep; [sig] says whether a
    signal arrives during the sleep, in which case the call gives up with
    [-EINTR].  In this sequential model nobody else runs, so a sleep without
    a signal never ends. *)
Definition mutex_lock_interruptible (m : mutex_id) (sig : bool) : kernel Z :=
  fun st =>
    if locked m st then
      if sig then Done (- EINTR) st else Blocked
    else Done 0 (set_locked m true st).

Definition mutex_unlock (m : mutex_id) : kernel unit :=
  fun st => Done tt (set_locked m false st).

Definition kstrlen (a : list ascii) : kernel nat :=
  fun st =>
    match strlen a with
    | Some n => Done n st
    | None => Undefined ReadPastEnd st
    end.

Definition kstore (a : list ascii) (i : Z) (c : ascii) : kernel (list ascii) :=
  fun st =>
    match array_set a i c with
    | Some a' => Done a' st
    | None => Undefined (WriteOutside i) st
    end.

Definition write_kva2pa (v : Z) : kernel unit := fun st => Done tt (set_kva2pa v st).
Definition write_pa2kva (v : Z) : kernel unit := fun st => Done tt (set_pa2kva v st).
Definition read_kva2pa : kernel Z := fun st => Done (gxlated_addr_kva2pa st) st.
Definition read_pa2kva : kernel Z := fun st => Done (gxlated_addr_pa2kva st) st.

(** Conversion of a [size_t] to [int]. *)
Definition to_int (z : Z) : Z := (z + 2 ^ 31) mod 2 ^ 32 - 2 ^ 31.

(** ** The four sysfs callbacks *)

(** A [show] callback yields its return value and the text it left in the
    caller's page [buf] (nothing when it returns before [snprintf]). *)
Definition addrxlate_pa2kva_show (pf : platform) (sig : bool)
  : kernel (Z * list ascii) :=
  r <- mutex_lock_interruptible Mtx2 sig ;;
  if negb (r =? 0) then return_ (- ERESTARTSYS, [])
  else
    v <- read_pa2kva ;;
    let (buf, n) := snprintf ADDR_MAXLEN (fmt_addr (bits pf) v) in
    mutex_unlock Mtx2 ;;;
    return_ (n, buf).

(** [buf] lists the [count] bytes written to the attribute; [sig] is the
    environment's choice for [mutex_lock_interruptible]. *)
Definition addrxlate_pa2kva_store (pf : platform) (buf : list ascii)
  (count : Z) (sig : bool) : kernel Z :=
  let pa := 0 in
  r <- mutex_lock_interruptible Mtx2 sig ;;
  if negb (r =? 0) then return_ (- ERESTARTSYS)
  else
    let s_addr := memset NUL (Z.to_nat ADDR_MAXLEN) in
    let s_addr := strncpy s_addr buf (Z.to_nat ADDR_MAXLEN) in
    n <- kstrlen s_addr ;;
    s_addr <- kstore s_addr (Z.of_nat n - 1) NUL ;;
    if (count =? 0) || (count >? ADDR_MAXLEN) then
      (* ret = -EINVAL; goto out; *)
      mutex_unlock Mtx2 ;;;
      return_ (- EINVAL)
    else
      let (r, pa) := kstrto (bits pf) (cstring s_addr) pa in
      if r <? 0 then
        mutex_unlock Mtx2 ;;;
        return_ r
      else if pa >? PAGE_OFFSET pf then
        return_ (- EFAULT)
      else
        write_pa2kva (to_addr_t (bits pf) (phys_to_virt pf pa)) ;;;
        (* ret = count; out: *)
        mutex_unlock Mtx2 ;;;
        return_ (to_int count).

(** Lines 238-245 of [addrxlate_kva2pa_store]: the new value of [valid]. *)
Definition kva_check (pf : platform) (kva : Z) (valid : bool) : bool :=
  if CONFIG_X86 pf then
    if negb (virt_addr_valid pf kva) then false else valid
  else
    if (kva <? PAGE_OFFSET pf)
       || (kva >? to_addr_t (bits pf) (high_memory pf))
    then false else valid.

Definition addrxlate_kva2pa_show (pf : platform) (sig : bool)
  : kernel (Z * list ascii) :=
  r <- mutex_lock_interruptible Mtx1 sig ;;
  if negb (r =? 0) then return_ (- ERESTARTSYS, [])
  else
    v <- read_kva2pa ;;
    let (buf, n) := snprintf ADDR_MAXLEN (fmt_addr (bits pf) v) in
    mutex_unlock Mtx1 ;;;
    return_ (n, buf).

Definition addrxlate_kva2pa_store (pf : platform) (buf : list ascii)
  (count : Z) (sig : bool) : kernel Z :=
  let valid := true in
  let kva := 0 in
  r <- mutex_lock_interruptible Mtx1 sig ;;
  if negb (r =? 0) then return_ (- ERESTARTSYS)
  else
    let s_addr := memset NUL (Z.to_nat ADDR_MAXLEN) in
    let s_addr := strncpy s_addr buf (Z.to_nat ADDR_MAXLEN) in
    n <- kstrlen s_addr ;;
    s_addr <- kstore s_addr (Z.of_nat n - 1) NUL ;;
    if (count =? 0) || (count >? ADDR_MAXLEN) then
      mutex_unlock Mtx1 ;;;
      return_ (- EINVAL)
    else
      let (r, kva) := kstrto (bits pf) (cstring s_addr) kva in
      if r <? 0 then
        mutex_unlock Mtx1 ;;;
        return_ r
      else
        let valid := kva_check pf kva valid in
        if negb valid then
          return_ (- EFAULT)
        else
          write_kva2pa (to_addr_t (bits pf) (virt_to_phys pf kva)) ;;;
          mutex_unlock Mtx1 ;;;
          return_ (to_int count).

(** The two attributes made by [DEVICE_ATTR_RW]: [SYSFS_FILE1] is
    [addrxlate_kva2pa], [SYSFS_FILE2] is [addrxlate_pa2kva]. *)
Inductive attribute : Type := SYSFS_FILE1 | SYSFS_FILE2.

Definition dev_attr_show (pf : platform) (a : attribute) (sig : bool)
  : kernel (Z * list ascii) :=
  match a with
  | SYSFS_FILE1 => addrxlate_kva2pa_show pf sig
  | SYSFS_FILE2 => addrxlate_pa2kva_show pf sig
  end.

Definition dev_attr_store (pf : platform) (a : attribute) (buf : list ascii)
  (count : Z) (sig : bool) : kernel Z :=
  match a with
  | SYSFS_FILE1 => addrxlate_kva2pa_store pf buf count sig
  | SYSFS_FILE2 => addrxlate_pa2kva_store pf buf count sig
  end.

(** The mutex and the cached translation that belong to an attribute. *)
Definition attr_mutex (a : attribute) : mutex_id :=
  match a with SYSFS_FILE1 => Mtx1 | SYSFS_FILE2 => Mtx2 end.

Definition cached (a : attribute) (st : state) : Z :=
  match a with
  | SYSFS_FILE1 => gxlated_addr_kva2pa st
  | SYSFS_FILE2 => gxlated_addr_pa2kva st
  end.

(** A write system call of the bytes [buf]: sysfs passes their number as
    [count]. *)
Definition sysfs_write (pf : platform) (a : attribute) (buf : list ascii)
  (sig : bool) : kernel Z :=
  dev_attr_store pf a buf (Z.of_nat (List.length buf)) sig.

(** ** Example platforms *)

(** The direct map: lowmem is mapped at the constant offset
    [PAGE_OFFSET]. *)
Definition linear_virt_to_phys (page_offset kva : Z) : Z := kva - page_offset.
Definition linear_phys_to_virt (page_offset pa : Z) : Z := pa + page_offset.

(** A 32-bit ARM machine with the 3G/1G split and 768 MiB of lowmem. *)
Definition arm32 : platform :=
  mkPlatform W32 0xC0000000 0xF0000000 false (fun _ => false)
    (linear_virt_to_phys 0xC0000000) (linear_phys_to_virt 0xC0000000).

(** A 32-bit ARM machine with the 1G/3G split ([CONFIG_VMSPLIT_1G]) and
    2 GiB of lowmem. *)
Definition arm32_vmsplit_1g : platform :=
  mkPlatform W32 0x40000000 0xC0000000 false (fun _ => false)
    (linear_virt_to_phys 0x40000000) (linear_phys_to_virt 0x40000000).

(** A 64-bit ARM machine (48-bit virtual addresses) with 4 GiB of RAM. *)
Definition arm64 : platform :=
  mkPlatform W64 0xFFFF000000000000 0xFFFF000100000000 false (fun _ => false)
    (linear_virt_to_phys 0xFFFF000000000000)
    (linear_phys_to_virt 0xFFFF000000000000).

(** An x86-64 machine with 4 GiB of RAM; [virt_addr_valid] holds on the
    direct map of that RAM. *)
Definition x86_64 : platform :=
  mkPlatform W64 0xFFFF888000000000 0xFFFF888100000000 true
    (fun kva => (0xFFFF888000000000 <=? kva) && (kva <? 0xFFFF888100000000))
    (linear_virt_to_phys 0xFFFF888000000000)
    (linear_phys_to_virt 0xFFFF888000000000).

(** ** What the callbacks compute *)

(** The text handed to [kstrtoull]: [s_addr] after the [memset], [strncpy]
    and newline removal of lines 132-134 and 213-215, provided both stay
    inside the array. *)
Definition trimmed (buf : list ascii) : option (list ascii) :=
  let s_addr := strncpy (memset NUL (Z.to_nat ADDR_MAXLEN)) buf
                        (Z.to_nat ADDR_MAXLEN) in
  match strlen s_addr with
  | None => None
  | Some n => option_map cstring (array_set s_addr (Z.of_nat n - 1) NUL)
  end.

(** The translation an attribute caches for an accepted address. *)
Definition translate (pf : platform) (a : attribute) (addr : Z) : Z :=
  match a with
  | SYSFS_FILE1 => to_addr_t (bits pf) (virt_to_phys pf addr)
  | SYSFS_FILE2 => to_addr_t (bits pf) (phys_to_virt pf addr)
  end.

Definition set_cached (a : attribute) (v : Z) (st : state) : state :=
  match a with
  | SYSFS_FILE1 => set_kva2pa v st
  | SYSFS_FILE2 => set_pa2kva v st
  end.

(** The range check of an attribute's [store]: [true] when the parsed
    address is let through. *)
Definition in_range (pf : platform) (a : attribute) (addr : Z) : bool :=
  match a with
  | SYSFS_FILE1 => kva_check pf addr true
  | SYSFS_FILE2 => negb (addr >? PAGE_OFFSET pf)
  end.

(** ** Proof support *)

Definition nul_free (s : list ascii) : Prop := Forall (fun c => c <> NUL) s.

(** Case analysis on a hexadecimal digit [d], from [H : 0 <= d < 16]. *)
Ltac hex_cases d H :=
  let E := fresh "E" in
  assert (E : d = 0 \/ d = 1 \/ d = 2 \/ d = 3 \/ d = 4 \/ d = 5 \/ d = 6
              \/ d = 7 \/ d = 8 \/ d = 9 \/ d = 10 \/ d = 11 \/ d = 12
              \/ d = 13 \/ d = 14 \/ d = 15) by lia;
  clear H;
  destruct E
    as [-> | [-> | [-> | [-> | [-> | [-> | [-> | [-> |
       [-> | [-> | [-> | [-> | [-> | [-> | [-> | ->]]]]]]]]]]]]]]].

(** ** Histories of writes *)

Record write_call : Type := mkWrite {
  w_attr : attribute;
  w_buf : list ascii;
  w_sig : bool
}.

Fixpoint run_writes (pf : platform) (ws : list write_call) : kernel unit :=
  match ws with
  | [] => return_ tt
  | w :: ws' =>
      sysfs_write pf (w_attr w) (w_buf w) (w_sig w) ;;; run_writes pf ws'
  end.

Definition attribute_eqb (a b : attribute) : bool :=
  match a, b with
  | SYSFS_FILE1, SYSFS_FILE1 | SYSFS_FILE2, SYSFS_FILE2 => true
  | _, _ => false
  end.

(** The address a write asks to translate: what [kstrtoull] reads from the
    trimmed text. *)
Definition requested (pf : platform) (buf : list ascii) : Z :=
  match trimmed buf with
  | Some s => snd (kstrto (bits pf) s 0)
  | None => 0
  end.

(** The translation of the last write to attribute [a] that returned
    success, [last] when there is none. *)
Fixpoint last_stored (pf : platform) (a : attribute) (ws : list write_call)
  (st : state) (last : Z) : Z :=
  match ws with
  | [] => last
  | w :: ws' =>
      match sysfs_write pf (w_attr w) (w_buf w) (w_sig w) st with
      | Done r st' =>
          last_stored pf a ws' st'
            (if (0 <=? r) && attribute_eqb a (w_attr w)
             then translate pf a (requested pf (w_buf w))
             else last)
      | _ => last
      end
  end.

(** A write is well sized when [count] passes the check of lines 135 and
    216. *)
Definition well_sized (buf : list ascii) : Prop :=
  0 < Z.of_nat (List.length buf) <= ADDR_MAXLEN.

(** Write a text to [addrxlate_kva2pa], read it back, write what was read
    to [addrxlate_pa2kva] and read that back: the four return values. *)
Definition round_trip (pf : platform) (text : list ascii)
  : kernel (Z * (Z * list ascii) * Z * (Z * list ascii)) :=
  w1 <- sysfs_write pf SYSFS_FILE1 text false ;;
  r1 <- dev_attr_show pf SYSFS_FILE1 false ;;
  w2 <- sysfs_write pf SYSFS_FILE2 (snd r1) false ;;
  r2 <- dev_attr_show pf SYSFS_FILE2 false ;;
  return_ (w1, r1, w2, r2).

(** ** Further notions about the callbacks *)

(** The attribute that is not [a]. *)
Definition other (a : attribute) : attribute :=
  match a with
  | SYSFS_FILE1 => SYSFS_FILE2
  | SYSFS_FILE2 => SYSFS_FILE1
  end.

(** The state a callback has reached when it holds its mutex. *)
Definition holding (a : attribute) (st : state) : state :=
  set_locked (attr_mutex a) true st.

(** The round trip in the other direction: a physical address goes to
    [addrxlate_pa2kva], what is read back goes to [addrxlate_kva2pa]. *)
Definition round_trip_back (pf : platform) (text : list ascii)
  : kernel (Z * (Z * list ascii) * Z * (Z * list ascii)) :=
  w1 <- sysfs_write pf SYSFS_FILE2 text false ;;
  r1 <- dev_attr_show pf SYSFS_FILE2 false ;;
  w2 <- sysfs_write pf SYSFS_FILE1 (snd r1) false ;;
  r2 <- dev_attr_show pf SYSFS_FILE1 false ;;
  return_ (w1, r1, w2, r2).

(** Two writes one after the other, with both return values. *)
Definition write_twice (pf : platform) (w1 w2 : write_call) : kernel (Z * Z) :=
  r1 <- sysfs_write pf (w_attr w1) (w_buf w1) (w_sig w1) ;;
  r2 <- sysfs_write pf (w_attr w2) (w_buf w2) (w_sig w2) ;;
  return_ (r1, r2).

(** ** Module load and unload *)

(** What the driver core answers during [sysfs_addrxlate_init]: whether
    [CONFIG_SYSFS] is enabled, the pointer
    [platform_device_register_simple] returns (a device, or an [ERR_PTR]),
    and the status of [device_create_file] for each attribute. *)
Record load_env : Type := mkEnv {
  CONFIG_SYSFS : bool;
  register_result : Z;
  create_status : attribute -> Z
}.

Definition MAX_ERRNO : Z := 4095.

(** [IS_ERR] and [PTR_ERR] of [include/linux/err.h], on a pointer read as a
    [long]. *)
Definition IS_ERR (p : Z) : bool := (- MAX_ERRNO <=? p) && (p <? 0).
Definition PTR_ERR (p : Z) : Z := p.

(** The calls a module makes into the driver core, with their results. *)
Inductive api_call : Type :=
| Call_register (result : Z)
| Call_create_file (dev : Z) (a : attribute) (status : Z)
| Call_remove_file (dev : Z) (a : attribute)
| Call_unregister (dev : Z).

(** The global [sysfs_demo_platdev] and the calls made so far, oldest
    first. *)
Record driver_state : Type := mkDriver {
  sysfs_demo_platdev : Z;
  api_log : list api_call
}.

Definition logged (c : api_call) (ds : driver_state) : driver_state :=
  mkDriver (sysfs_demo_platdev ds) (api_log ds ++ [c]).

Definition platform_device_register_simple (env : load_env)
  (ds : driver_state) : Z * driver_state :=
  (register_result env, logged (Call_register (register_result env)) ds).

Definition device_create_file (env : load_env) (dev : Z) (a : attribute)
  (ds : driver_state) : Z * driver_state :=
  (create_status env a, logged (Call_create_file dev a (create_status env a)) ds).

Definition device_remove_file (dev : Z) (a : attribute) (ds : driver_state)
  : driver_state :=
  logged (Call_remove_file dev a) ds.

Definition platform_device_unregister (dev : Z) (ds : driver_state)
  : driver_state :=
  logged (Call_unregister dev) ds.

Definition sysfs_addrxlate_init (env : load_env) (ds : driver_state)
  : Z * driver_state :=
  let stat := 0 in
  if negb (CONFIG_SYSFS env) then (- EINVAL, ds)
  else
    let (p, ds) := platform_device_register_simple env ds in
    let ds := mkDriver p (api_log ds) in
    if IS_ERR (sysfs_demo_platdev ds) then
      let stat := PTR_ERR (sysfs_demo_platdev ds) in
      (* goto out1 *)
      (stat, ds)
    else
      let (stat, ds) :=
        device_create_file env (sysfs_demo_platdev ds) SYSFS_FILE1 ds in
      if negb (stat =? 0) then
        (* goto out2 *)
        let ds := platform_device_unregister (sysfs_demo_platdev ds) ds in
        (stat, ds)
      else
        let (stat, ds) :=
          device_create_file env (sysfs_demo_platdev ds) SYSFS_FILE2 ds in
        if negb (stat =? 0) then
          (* goto out3 *)
          let ds := device_remove_file (sysfs_demo_platdev ds) SYSFS_FILE1 ds in
          let ds := platform_device_unregister (sysfs_demo_platdev ds) ds in
          (stat, ds)
        else (0, ds).

Definition sysfs_addrxlate_cleanup (ds : driver_state) : driver_state :=
  let ds := device_remove_file (sysfs_demo_platdev ds) SYSFS_FILE2 ds in
  let ds := device_remove_file (sysfs_demo_platdev ds) SYSFS_FILE1 ds in
  platform_device_unregister (sysfs_demo_platdev ds) ds.

(** Before the module is loaded: [sysfs_demo_platdev] is NULL and nothing
    has been called. *)
Definition unloaded : driver_state := mkDriver 0 [].

(** What a module holds in the driver core. *)
Inductive resource : Type :=
| Platdev (dev : Z)
| AttrFile (dev : Z) (a : attribute).

Definition resource_eqb (x y : resource) : bool :=
  match x, y with
  | Platdev d, Platdev e => d =? e
  | AttrFile d a, AttrFile e b => (d =? e) && attribute_eqb a b
  | _, _ => false
  end.

(** Stack discipline of the driver-core calls: a successful call pushes
    what it acquires, a failed call acquires nothing, a release must name
    the resource on top of the stack, and a file needs its device below
    it.  [None] when a call breaks the discipline. *)
Fixpoint unwind (log : list api_call) (held : list resource)
  : option (list resource) :=
  match log with
  | [] => Some held
  | Call_register p :: log' =>
      if IS_ERR p then unwind log' held
      else unwind log' (Platdev p :: held)
  | Call_create_file dev a status :: log' =>
      if existsb (resource_eqb (Platdev dev)) held then
        if status =? 0 then unwind log' (AttrFile dev a :: held)
        else unwind log' held
      else None
  | Call_remove_file dev a :: log' =>
      match held with
      | top :: held' =>
          if resource_eqb top (AttrFile dev a) then unwind log' held'
          else None
      | [] => None
      end
  | Call_unregister dev :: log' =>
      match held with
      | top :: held' =>
          if resource_eqb top (Platdev dev) then unwind log' held'
          else None
      | [] => None
      end
  end.

(** * Properties *)

(** ** The library model on examples *)

Example kstrtoull_hex : kstrtoull (txt "0x10") 0 7 = (0, 16).
Proof. reflexivity. Qed.

Example kstrtoull_newline : kstrtoull (line "4096") 0 7 = (0, 4096).
Proof. reflexivity. Qed.

Example kstrtoull_empty : kstrtoull [] 0 7 = (- EINVAL, 7).
Proof. reflexivity. Qed.

Example kstrtoull_overflow :
  kstrtoull (txt "0x10000000000000000") 0 7 = (- ERANGE, 7).
Proof. reflexivity. Qed.

Example kstrtoul_overflow : kstrtoul (txt "0x100000000") 0 7 = (- ERANGE, 7).
Proof. reflexivity. Qed.

Example store_then_show_arm32 :
  (sysfs_write arm32 SYSFS_FILE2 (line "0x0") false ;;;
   dev_attr_show arm32 SYSFS_FILE2 false) init_state
  = Done (11, line "0xc0000000") (mkState false false 0 0xC0000000).
Proof. reflexivity. Qed.

Example store_then_show_x86_64 :
  (sysfs_write x86_64 SYSFS_FILE1 (line "0xffff888000001000") false ;;;
   dev_attr_show x86_64 SYSFS_FILE1 false) init_state
  = Done (19, line "0x0000000000001000") (mkState false false 0x1000 0).
Proof. reflexivity. Qed.

(** ** How a [store] runs *)

Lemma unlock_after_lock m st :
  locked m st = false -> set_locked m false (set_locked m true st) = st.
Proof. destruct st, m; simpl; intros ->; reflexivity. Qed.

Lemma unlock_after_lock_cached a v st :
  locked (attr_mutex a) st = false ->
  set_locked (attr_mutex a) false
    (set_cached a v (set_locked (attr_mutex a) true st)) = set_cached a v st.
Proof. destruct st, a; simpl; intros ->; reflexivity. Qed.

(** With the mutex free and the trimming inside the array, a [store] is a
    cascade of three checks. *)
Lemma store_run pf a buf count sig st s :
  locked (attr_mutex a) st = false ->
  trimmed buf = Some s ->
  dev_attr_store pf a buf count sig st =
    if (count =? 0) || (count >? ADDR_MAXLEN) then Done (- EINVAL) st
    else
      let (r, addr) := kstrto (bits pf) s 0 in
      if r <? 0 then Done r st
      else if in_range pf a addr
           then Done (to_int count) (set_cached a (translate pf a addr) st)
           else Done (- EFAULT) (set_locked (attr_mutex a) true st).
Proof.
  intros Hfree Htrim. unfold trimmed in Htrim.
  destruct a; simpl in Hfree |- *;
    [unfold addrxlate_kva2pa_store | unfold addrxlate_pa2kva_store];
    unfold bind, mutex_lock_interruptible, kstrlen, kstore; simpl locked;
    rewrite Hfree; cbn [Z.eqb negb];
    (destruct (strlen _) as [n|]; [|discriminate]);
    (destruct (array_set _ _ _) as [s'|]; [|discriminate]);
    simpl in Htrim; injection Htrim as <-.
  - destruct ((count =? 0) || (count >? ADDR_MAXLEN)).
    + unfold mutex_unlock, return_.
      now rewrite (unlock_after_lock Mtx1).
    + destruct (kstrto (bits pf) (cstring s') 0) as [r kva].
      destruct (r <? 0).
      * unfold mutex_unlock, return_. now rewrite (unlock_after_lock Mtx1).
      * destruct (kva_check pf kva true); cbn [negb].
        -- unfold write_kva2pa, mutex_unlock, return_.
           now rewrite (unlock_after_lock_cached SYSFS_FILE1).
        -- reflexivity.
  - destruct ((count =? 0) || (count >? ADDR_MAXLEN)).
    + unfold mutex_unlock, return_.
      now rewrite (unlock_after_lock Mtx2).
    + destruct (kstrto (bits pf) (cstring s') 0) as [r pa].
      destruct (r <? 0).
      * unfold mutex_unlock, return_. now rewrite (unlock_after_lock Mtx2).
      * destruct (pa >? PAGE_OFFSET pf); cbn [negb].
        -- reflexivity.
        -- unfold write_pa2kva, mutex_unlock, return_.
           now rewrite (unlock_after_lock_cached SYSFS_FILE2).
Qed.

(** A [store] that finds its mutex taken either sleeps for ever or is
    interrupted; it touches nothing. *)
Lemma store_contended pf a buf count sig st :
  locked (attr_mutex a) st = true ->
  dev_attr_store pf a buf count sig st =
    if sig then Done (- ERESTARTSYS) st else Blocked.
Proof.
  intros Hheld.
  destruct a; simpl in Hheld |- *;
    [unfold addrxlate_kva2pa_store | unfold addrxlate_pa2kva_store];
    unfold bind, mutex_lock_interruptible; simpl locked; rewrite Hheld;
    destruct sig; reflexivity.
Qed.

(** When the trimming leaves the array the callback never returns a
    status. *)
Lemma store_outside_array pf a buf count sig st :
  locked (attr_mutex a) st = false ->
  trimmed buf = None ->
  exists u,
    dev_attr_store pf a buf count sig st
    = Undefined u (set_locked (attr_mutex a) true st).
Proof.
  intros Hfree Htrim. unfold trimmed in Htrim.
  destruct a; simpl in Hfree |- *;
    [unfold addrxlate_kva2pa_store | unfold addrxlate_pa2kva_store];
    unfold bind, mutex_lock_interruptible, kstrlen, kstore; simpl locked;
    rewrite Hfree; cbn [Z.eqb negb];
    (destruct (strlen _) as [n|]; [|eexists; reflexivity]);
    (destruct (array_set _ _ _) as [s'|]; [discriminate|]);
    eexists; reflexivity.
Qed.

Lemma to_int_small count :
  0 <= count <= ADDR_MAXLEN -> to_int count = count.
Proof.
  unfold to_int, ADDR_MAXLEN. intros H.
  rewrite Z.mod_small; lia.
Qed.

(** The only statuses of [kstrtoull] and [kstrtoul], and [*res] is written
    on success only. *)
Lemma _kstrtoull_status s base res r v :
  _kstrtoull s base res = (r, v) ->
  r = 0 \/ (r = - EINVAL /\ v = res) \/ (r = - ERANGE /\ v = res).
Proof.
  unfold _kstrtoull.
  destruct (_parse_integer_fixup_radix s base) as [s1 base1].
  destruct (p_overflow _); [intros [= <- <-]; auto|].
  destruct (Nat.eqb _ 0); [intros [= <- <-]; auto|].
  destruct (negb _); intros [= <- <-]; auto.
Qed.

Lemma kstrtoull_status s base res r v :
  kstrtoull s base res = (r, v) ->
  r = 0 \/ (r = - EINVAL /\ v = res) \/ (r = - ERANGE /\ v = res).
Proof.
  unfold kstrtoull. destruct (Ascii.eqb _ _); apply _kstrtoull_status.
Qed.

Lemma kstrto_status w s res r v :
  kstrto w s res = (r, v) ->
  r = 0 \/ (r = - EINVAL /\ v = res) \/ (r = - ERANGE /\ v = res).
Proof.
  destruct w; simpl; [|apply kstrtoull_status].
  unfold kstrtoul.
  destruct (kstrtoull s 0 res) as [rv tmp] eqn:E.
  apply kstrtoull_status in E.
  destruct E as [-> | [[-> ->] | [-> ->]]]; simpl.
  - destruct (negb _); intros [= <- <-]; auto.
  - intros [= <- <-]; auto.
  - intros [= <- <-]; auto.
Qed.

(** Every way a [store] can return, with the state it leaves. *)
Lemma store_done_inv pf a buf sig st r st' :
  sysfs_write pf a buf sig st = Done r st' ->
  (locked (attr_mutex a) st = true /\ r = - ERESTARTSYS /\ st' = st)
  \/ (locked (attr_mutex a) st = false /\
      exists s, trimmed buf = Some s /\
        ((r = - EINVAL /\ st' = st)
         \/ (r = - ERANGE /\ st' = st)
         \/ (r = - EFAULT /\ st' = set_locked (attr_mutex a) true st /\
             exists addr, kstrto (bits pf) s 0 = (0, addr) /\
                          in_range pf a addr = false)
         \/ (r = Z.of_nat (List.length buf) /\ 0 < r <= ADDR_MAXLEN /\
             exists addr, kstrto (bits pf) s 0 = (0, addr) /\
                          in_range pf a addr = true /\
                          st' = set_cached a (translate pf a addr) st))).
Proof.
  unfold sysfs_write. intros Hrun.
  destruct (locked (attr_mutex a) st) eqn:Hlock.
  - left. rewrite store_contended in Hrun by assumption.
    destruct sig; [|discriminate]. now injection Hrun as <- <-.
  - right. split; [reflexivity|].
    destruct (trimmed buf) as [s|] eqn:Htrim.
    2:{ destruct (store_outside_array pf a buf (Z.of_nat (List.length buf))
                    sig st Hlock Htrim) as [u Hu].
        rewrite Hu in Hrun. discriminate. }
    exists s. split; [reflexivity|].
    rewrite (store_run pf a buf _ sig st s Hlock Htrim) in Hrun.
    destruct ((_ =? 0) || (_ >? ADDR_MAXLEN)) eqn:Hsize.
    { injection Hrun as <- <-. auto. }
    apply orb_false_elim in Hsize. destruct Hsize as [Hz Hbig].
    apply Z.eqb_neq in Hz.
    assert (Hle : Z.of_nat (List.length buf) <= ADDR_MAXLEN)
      by (destruct (Z.of_nat (List.length buf) >? ADDR_MAXLEN) eqn:E;
          [discriminate | rewrite Z.gtb_ltb in E; apply Z.ltb_ge in E; exact E]).
    destruct (kstrto (bits pf) s 0) as [r0 addr] eqn:Hparse.
    pose proof (kstrto_status _ _ _ _ _ Hparse) as Hst.
    destruct (r0 <? 0) eqn:Hneg.
    { injection Hrun as <- <-.
      destruct Hst as [-> | [[-> _] | [-> _]]]; [discriminate | auto | auto]. }
    assert (r0 = 0) as ->
      by (destruct Hst as [-> | [[-> _] | [-> _]]];
          [reflexivity | discriminate | discriminate]).
    destruct (in_range pf a addr) eqn:Hrange; injection Hrun as <- <-.
    + right; right; right.
      rewrite to_int_small by lia.
      split; [reflexivity|]. split; [lia|]. exists addr. auto.
    + right; right; left. split; [reflexivity|]. split; [reflexivity|].
      exists addr. auto.
Qed.

Lemma well_sized_check buf :
  well_sized buf ->
  (Z.of_nat (List.length buf) =? 0)
  || (Z.of_nat (List.length buf) >? ADDR_MAXLEN) = false.
Proof. unfold well_sized. intros H. apply orb_false_intro; lia. Qed.

(** ** Trimming a line *)

Lemma strncpy_bytes_nul_free n s :
  nul_free s -> (List.length s <= n)%nat ->
  strncpy_bytes n s = s ++ repeat NUL (n - List.length s).
Proof.
  revert s. induction n as [|n IH]; intros s Hs Hlen.
  - destruct s; [reflexivity | simpl in Hlen; lia].
  - destruct s as [|c s]; [reflexivity|].
    inversion Hs as [|? ? Hc Hs']; subst.
    simpl in Hlen. cbn [strncpy_bytes].
    apply Ascii.eqb_neq in Hc. rewrite Hc.
    rewrite IH by (assumption || lia). reflexivity.
Qed.

Lemma strlen_at_first_nul s r :
  nul_free s -> strlen (s ++ NUL :: r) = Some (List.length s).
Proof.
  induction 1 as [|c s Hc Hs IH]; [reflexivity|].
  cbn [app strlen List.length]. apply Ascii.eqb_neq in Hc.
  now rewrite Hc, IH.
Qed.

Lemma array_set_nat_middle s x r c :
  array_set_nat (s ++ x :: r) (List.length s) c = Some (s ++ c :: r).
Proof.
  induction s as [|y s IH]; [reflexivity|].
  cbn [app List.length array_set_nat]. now rewrite IH.
Qed.

Lemma cstring_at_first_nul s r : nul_free s -> cstring (s ++ NUL :: r) = s.
Proof.
  induction 1 as [|c s Hc Hs IH]; [reflexivity|].
  cbn [app cstring]. apply Ascii.eqb_neq in Hc. now rewrite Hc, IH.
Qed.

(** Whatever the last character of a write of at most 19 bytes is, the
    callbacks drop it. *)
Lemma trimmed_drops_last s c :
  nul_free s -> c <> NUL -> (List.length s < 19)%nat ->
  trimmed (s ++ [c]) = Some s.
Proof.
  intros Hs Hc Hlen. unfold trimmed, strncpy.
  assert (Hsc : nul_free (s ++ [c]))
    by (apply Forall_app; split; [assumption | repeat constructor; assumption]).
  change (Z.to_nat ADDR_MAXLEN) with 20%nat.
  rewrite strncpy_bytes_nul_free
    by (assumption || (rewrite length_app; simpl; lia)).
  change (skipn 20 (memset NUL 20)) with (@nil ascii).
  rewrite app_nil_r, length_app. cbn [List.length].
  destruct (20 - (List.length s + 1))%nat as [|k] eqn:Hk; [lia|].
  cbn [repeat]. rewrite strlen_at_first_nul by assumption.
  rewrite length_app. cbn [List.length].
  unfold array_set.
  replace (Z.of_nat (List.length s + 1) - 1) with (Z.of_nat (List.length s))
    by lia.
  destruct (Z.of_nat (List.length s) <? 0) eqn:Hneg; [lia|].
  rewrite Nat2Z.id, <- app_assoc. cbn [app].
  rewrite array_set_nat_middle. cbn [option_map].
  now rewrite cstring_at_first_nul.
Qed.

(** ** Reading back what [show] prints *)

Lemma digit_value_hexchar d :
  0 <= d < 16 -> digit_value (code (hexchar d)) = Some d.
Proof. intros H. hex_cases d H; reflexivity. Qed.

Lemma isxdigit_hexchar d : 0 <= d < 16 -> isxdigit (code (hexchar d)) = true.
Proof. intros H. hex_cases d H; reflexivity. Qed.

Lemma hexchar_not_nul d : 0 <= d < 16 -> hexchar d <> NUL.
Proof. intros H. hex_cases d H; discriminate. Qed.

Lemma hex_digits_length n v : List.length (hex_digits n v) = n.
Proof.
  revert v. induction n as [|n IH]; intros v; [reflexivity|].
  cbn [hex_digits]. rewrite length_app, IH. simpl. lia.
Qed.

Lemma hex_digits_nul_free n v : nul_free (hex_digits n v).
Proof.
  revert v. induction n as [|n IH]; intros v; [constructor|].
  cbn [hex_digits]. apply Forall_app. split; [apply IH|].
  repeat constructor. apply hexchar_not_nul.
  apply Z.mod_pos_bound. lia.
Qed.

(** The most significant digit comes first. *)
Lemma hex_digits_head n v :
  hex_digits (S n) v
  = hexchar ((v / 16 ^ Z.of_nat n) mod 16) :: hex_digits n v.
Proof.
  revert v. induction n as [|n IH]; intros v.
  - cbn [hex_digits app]. now rewrite Z.pow_0_r, Z.div_1_r.
  - change (hex_digits (S (S n)) v)
      with (hex_digits (S n) (v / 16) ++ [hexchar (v mod 16)]).
    rewrite IH. cbn [app hex_digits]. f_equal. f_equal.
    rewrite Nat2Z.inj_succ, Z.pow_succ_r by lia.
    rewrite Z.div_div by lia. reflexivity.
Qed.

(** One turn of the digit loop on a hexadecimal digit, far from
    overflow. *)
Lemma parse_integer_hexchar d s acc :
  0 <= d < 16 -> 0 <= p_res acc < 2 ^ 60 ->
  _parse_integer_from (hexchar d :: s) 16 acc
  = _parse_integer_from s 16
      (mkParsed (p_res acc * 16 + d) (S (p_rv acc)) (p_overflow acc)).
Proof.
  intros Hd Hacc. cbn [_parse_integer_from].
  rewrite digit_value_hexchar by assumption.
  destruct (d >=? 16) eqn:Hge; [lia|].
  assert (Hq : 2 ^ 60 - 1 <= (ULLONG_MAX - d) / 16).
  { apply Z.div_le_lower_bound; [lia|]. unfold ULLONG_MAX. lia. }
  assert (Hcmp : (p_res acc >? (ULLONG_MAX - d) / 16) = false) by lia.
  rewrite Hcmp.
  destruct (negb _); rewrite orb_false_r; (rewrite Z.mod_small by lia);
    reflexivity.
Qed.

Lemma parse_integer_hex_digits n v rest acc :
  0 <= p_res acc -> (p_res acc + 1) * 16 ^ Z.of_nat n <= 2 ^ 64 ->
  _parse_integer_from (hex_digits n v ++ rest) 16 acc
  = _parse_integer_from rest 16
      (mkParsed (p_res acc * 16 ^ Z.of_nat n + v mod 16 ^ Z.of_nat n)
                (p_rv acc + n) (p_overflow acc)).
Proof.
  revert v rest acc. induction n as [|n IH]; intros v rest acc Hpos Hbound.
  - cbn [hex_digits app]. rewrite Z.pow_0_r, Z.mod_1_r, Z.mul_1_r, Z.add_0_r.
    rewrite Nat.add_0_r. now destruct acc.
  - rewrite Nat2Z.inj_succ, Z.pow_succ_r in * by lia.
    assert (Hp : 0 < 16 ^ Z.of_nat n) by (apply Z.pow_pos_nonneg; lia).
    assert (Hm := Z.mod_pos_bound (v / 16) (16 ^ Z.of_nat n) Hp).
    assert (Hd := Z.mod_pos_bound v 16 ltac:(lia)).
    cbn [hex_digits]. rewrite <- app_assoc. cbn [app].
    rewrite IH by nia.
    rewrite parse_integer_hexchar; cbn [p_res p_rv p_overflow];
      [| assumption | nia].
    f_equal. f_equal; [|lia].
    rewrite (Z.rem_mul_r v 16 (16 ^ Z.of_nat n)) by lia. ring.
Qed.

Lemma fixup_radix_hex h t :
  isxdigit (code h) = true ->
  _parse_integer_fixup_radix ("0"%char :: "x"%char :: h :: t) 0 = (h :: t, 16).
Proof.
  intros Hx. unfold _parse_integer_fixup_radix, char_at. cbn [nth].
  rewrite Hx. reflexivity.
Qed.

Lemma kstrtoull_hex_digits n v res :
  (S n <= 16)%nat ->
  kstrtoull (txt "0x" ++ hex_digits (S n) v) 0 res
  = (0, v mod 16 ^ Z.of_nat (S n)).
Proof.
  intros Hn.
  assert (Hd := Z.mod_pos_bound (v / 16 ^ Z.of_nat n) 16 ltac:(lia)).
  change (txt "0x" ++ hex_digits (S n) v)
    with ("0"%char :: "x"%char :: hex_digits (S n) v).
  unfold kstrtoull.
  change (Ascii.eqb (char_at ("0"%char :: "x"%char :: hex_digits (S n) v) 0)
            "+"%char) with false.
  cbv iota. unfold _kstrtoull.
  rewrite (hex_digits_head n v) at 1.
  rewrite fixup_radix_hex by (apply isxdigit_hexchar; assumption).
  rewrite <- hex_digits_head.
  assert (Hp : _parse_integer (hex_digits (S n) v) 16
               = mkParsed (v mod 16 ^ Z.of_nat (S n)) (S n) false).
  { unfold _parse_integer.
    rewrite <- (app_nil_r (hex_digits (S n) v)).
    rewrite parse_integer_hex_digits; cbn [p_res p_rv p_overflow].
    - reflexivity.
    - lia.
    - rewrite Z.mul_1_l. change (2 ^ 64) with (16 ^ 16).
      apply Z.pow_le_mono_r; lia. }
  rewrite Hp. cbn [p_res p_rv p_overflow Nat.eqb].
  rewrite skipn_all2 by (rewrite hex_digits_length; lia).
  reflexivity.
Qed.

(** [kstrtoull]/[kstrtoul] read back the digits [show] prints. *)
Lemma kstrto_hex w v res :
  0 <= v < 2 ^ BITS_PER_LONG w ->
  kstrto w (txt "0x" ++ hex_digits (FMTSPC_width w) v) res = (0, v).
Proof.
  intros Hv. destruct w; cbn [kstrto FMTSPC_width BITS_PER_LONG] in *.
  - unfold kstrtoul. rewrite kstrtoull_hex_digits by lia.
    change (16 ^ Z.of_nat 8) with (2 ^ 32).
    rewrite Z.mod_mod by lia. rewrite Z.mod_small by assumption.
    change (0 <? 0) with false. cbv iota.
    rewrite Z.eqb_refl. reflexivity.
  - rewrite kstrtoull_hex_digits by lia.
    change (16 ^ Z.of_nat 16) with (2 ^ 64).
    now rewrite Z.mod_small.
Qed.

(** The text [show] prints is a line without NUL, shorter than
    [s_addr]. *)
Lemma fmt_addr_length w v :
  Z.of_nat (List.length (fmt_addr w v)) = Z.of_nat (FMTSPC_width w) + 3.
Proof.
  unfold fmt_addr. rewrite !length_app, hex_digits_length. simpl List.length.
  lia.
Qed.

Lemma trimmed_fmt_addr w v :
  trimmed (fmt_addr w v) = Some (txt "0x" ++ hex_digits (FMTSPC_width w) v).
Proof.
  unfold fmt_addr. rewrite app_assoc. apply trimmed_drops_last.
  - apply Forall_app. split; [|apply hex_digits_nul_free].
    repeat constructor; discriminate.
  - discriminate.
  - rewrite length_app, hex_digits_length. destruct w; simpl; lia.
Qed.

(** [show] with its mutex free. *)
Lemma show_run pf a sig st :
  locked (attr_mutex a) st = false ->
  dev_attr_show pf a sig st
  = Done (Z.of_nat (FMTSPC_width (bits pf)) + 3,
          fmt_addr (bits pf) (cached a st)) st.
Proof.
  intros Hfree.
  destruct a; simpl in Hfree |- *;
    [unfold addrxlate_kva2pa_show | unfold addrxlate_pa2kva_show];
    unfold bind, mutex_lock_interruptible, read_kva2pa, read_pa2kva;
    simpl locked; rewrite Hfree; cbn [Z.eqb negb]; unfold snprintf;
    rewrite fmt_addr_length;
    (rewrite firstn_all2
       by (apply Nat2Z.inj_le; rewrite fmt_addr_length;
           destruct (bits pf); simpl; lia));
    unfold mutex_unlock, return_;
    [rewrite (unlock_after_lock Mtx1) | rewrite (unlock_after_lock Mtx2)];
    (reflexivity || assumption).
Qed.

Lemma show_contended pf a sig st :
  locked (attr_mutex a) st = true ->
  dev_attr_show pf a sig st
  = if sig then Done (- ERESTARTSYS, []) st else Blocked.
Proof.
  intros Hheld.
  destruct a; simpl in Hheld |- *;
    [unfold addrxlate_kva2pa_show | unfold addrxlate_pa2kva_show];
    unfold bind, mutex_lock_interruptible; simpl locked; rewrite Hheld;
    destruct sig; reflexivity.
Qed.

(** Writing back a text that [show] printed. *)
Lemma write_fmt_addr pf a addr sig st :
  locked (attr_mutex a) st = false ->
  0 <= addr < 2 ^ BITS_PER_LONG (bits pf) ->
  sysfs_write pf a (fmt_addr (bits pf) addr) sig st =
    if in_range pf a addr
    then Done (Z.of_nat (FMTSPC_width (bits pf)) + 3)
           (set_cached a (translate pf a addr) st)
    else Done (- EFAULT) (set_locked (attr_mutex a) true st).
Proof.
  intros Hfree Haddr. unfold sysfs_write.
  rewrite (store_run pf a _ _ sig st _ Hfree (trimmed_fmt_addr _ _)).
  rewrite fmt_addr_length.
  assert (Hw : 0 < Z.of_nat (FMTSPC_width (bits pf)) + 3 <= ADDR_MAXLEN)
    by (destruct (bits pf); unfold ADDR_MAXLEN; simpl; lia).
  assert (Hc : (Z.of_nat (FMTSPC_width (bits pf)) + 3 =? 0)
               || (Z.of_nat (FMTSPC_width (bits pf)) + 3 >? ADDR_MAXLEN)
               = false) by (apply orb_false_intro; lia).
  rewrite Hc, kstrto_hex by assumption.
  change (0 <? 0) with false. cbv iota.
  rewrite to_int_small by lia. reflexivity.
Qed.

(** ** Effect of writes on the module state *)

Lemma cached_set_cached a b v st :
  cached a (set_cached b v st) = if attribute_eqb a b then v else cached a st.
Proof. destruct a, b; reflexivity. Qed.

Lemma cached_set_locked a m b st : cached a (set_locked m b st) = cached a st.
Proof. destruct a, m; reflexivity. Qed.

Lemma locked_set_cached m a v st : locked m (set_cached a v st) = locked m st.
Proof. destruct a, m; reflexivity. Qed.

(** The effect of one write on the cached translations. *)
Lemma store_effect pf a b buf sig st r st' :
  sysfs_write pf b buf sig st = Done r st' ->
  cached a st' =
    if (0 <=? r) && attribute_eqb a b
    then translate pf a (requested pf buf)
    else cached a st.
Proof.
  intros Hrun. apply store_done_inv in Hrun.
  destruct Hrun as [(_ & -> & ->) | (_ & s & Htrim & Hcase)]; [reflexivity|].
  destruct Hcase as [(-> & ->) | [(-> & ->) | [(-> & -> & _) | Hok]]];
    try reflexivity.
  - now rewrite cached_set_locked.
  - destruct Hok as (_ & Hr & addr & Hparse & _ & ->).
    rewrite cached_set_cached.
    assert (H0 : (0 <=? r) = true) by lia. rewrite H0. cbn [andb].
    destruct (attribute_eqb a b) eqn:Hab; [|reflexivity].
    unfold requested. rewrite Htrim, Hparse. cbn [snd].
    destruct a, b; (reflexivity || discriminate).
Qed.

(** A rejected write leaves both cached translations as they were. *)
Lemma rejected_store_keeps_cache pf a b buf sig st r st' :
  sysfs_write pf b buf sig st = Done r st' -> r < 0 ->
  cached a st' = cached a st.
Proof.
  intros Hrun Hneg. rewrite (store_effect pf a b buf sig st r st' Hrun).
  assert (H0 : (0 <=? r) = false) by lia. now rewrite H0.
Qed.

(** From a free mutex, a write leaves the mutex locked exactly when it
    returns [-EFAULT]. *)
Lemma store_mutex_after pf a buf sig st r st' :
  locked (attr_mutex a) st = false ->
  sysfs_write pf a buf sig st = Done r st' ->
  locked (attr_mutex a) st' = (r =? - EFAULT).
Proof.
  intros Hfree Hrun. apply store_done_inv in Hrun.
  destruct Hrun as [(Hheld & _) | (_ & s & _ & Hcase)]; [congruence|].
  destruct Hcase as [(-> & ->) | [(-> & ->) | [(-> & -> & _) | Hok]]];
    try assumption.
  - destruct st, a; reflexivity.
  - destruct Hok as (_ & Hr & addr & _ & _ & ->).
    rewrite locked_set_cached, Hfree. unfold EFAULT. lia.
Qed.

Lemma translate_range pf a addr :
  0 <= translate pf a addr < 2 ^ BITS_PER_LONG (bits pf).
Proof.
  destruct a; unfold translate, to_addr_t; apply Z.mod_pos_bound;
    destruct (bits pf); reflexivity.
Qed.

Lemma run_writes_last_stored pf a ws : forall st last st',
  cached a st = last ->
  run_writes pf ws st = Done tt st' ->
  cached a st' = last_stored pf a ws st last.
Proof.
  induction ws as [|w ws IH]; intros st last st' Hinv Hrun.
  - injection Hrun as <-. exact Hinv.
  - cbn [run_writes last_stored] in *. unfold bind in Hrun.
    destruct (sysfs_write pf (w_attr w) (w_buf w) (w_sig w) st)
      as [r st1| |] eqn:Hw; try discriminate.
    apply (IH st1); [|assumption].
    rewrite (store_effect pf a _ _ _ _ _ _ Hw), Hinv. reflexivity.
Qed.

Lemma last_stored_range pf a ws : forall st last,
  0 <= last < 2 ^ BITS_PER_LONG (bits pf) ->
  0 <= last_stored pf a ws st last < 2 ^ BITS_PER_LONG (bits pf).
Proof.
  induction ws as [|w ws IH]; intros st last Hlast; [exact Hlast|].
  cbn [last_stored].
  destruct (sysfs_write pf (w_attr w) (w_buf w) (w_sig w) st)
    as [r st1| |]; try exact Hlast.
  apply IH. destruct (_ && _); [apply translate_range | exact Hlast].
Qed.

(** ** The specification's claims *)

(** C1. Lock release (fails on the code, see the failing inputs): a write
    whose address fails the range check returns [-EFAULT] with the
    attribute's mutex still locked, on both attributes. *)
Theorem efault_return_keeps_mutex_locked :
  sysfs_write arm64 SYSFS_FILE2 (line "0xffffffffffffffff") false init_state
  = Done (- EFAULT) (mkState false true 0 0)
  /\ sysfs_write arm64 SYSFS_FILE1 (line "0x1000") false init_state
     = Done (- EFAULT) (mkState true false 0 0).
Proof. split; reflexivity. Qed.

(** C2. Newline stripping (fails on the code): the last character is
    removed whether or not it is a newline, so the four bytes [0x10] are
    read as 0x1 and give the same translation as the line [0x1], not that
    of the line [0x10]. *)
Theorem store_drops_last_digit :
  trimmed (txt "0x10") = Some (txt "0x1")
  /\ sysfs_write arm32 SYSFS_FILE2 (txt "0x10") false init_state
     = Done 4 (mkState false false 0 0xC0000001)
  /\ sysfs_write arm32 SYSFS_FILE2 (line "0x1") false init_state
     = Done 4 (mkState false false 0 0xC0000001)
  /\ sysfs_write arm32 SYSFS_FILE2 (line "0x10") false init_state
     = Done 5 (mkState false false 0 0xC0000010).
Proof. repeat split; reflexivity. Qed.

(** C3. Zero-length input (fails on the code): with [count = 0] both
    callbacks write [s_addr[-1]] before they look at [count], whatever the
    platform; the same happens for every write whose first byte is NUL,
    whatever its length. *)
Theorem zero_length_store_writes_outside pf a sig :
  dev_attr_store pf a [] 0 sig init_state
  = Undefined (WriteOutside (-1)) (set_locked (attr_mutex a) true init_state)
  /\ forall rest count,
       dev_attr_store pf a (NUL :: rest) count sig init_state
       = Undefined (WriteOutside (-1))
           (set_locked (attr_mutex a) true init_state).
Proof. destruct a; split; reflexivity. Qed.

(** C4 as stated fails: the physical address equal to [PAGE_OFFSET] is
    accepted and replaces the cached value. *)
Lemma pa_equal_to_PAGE_OFFSET_is_stored :
  trimmed (line "0xc0000000") = Some (txt "0xc0000000")
  /\ kstrto (bits arm32) (txt "0xc0000000") 0 = (0, PAGE_OFFSET arm32)
  /\ sysfs_write arm32 SYSFS_FILE2 (line "0xc0000000") false init_state
     = Done 11 (mkState false false 0 0x80000000)
  /\ gxlated_addr_pa2kva (mkState false false 0 0x80000000)
     <> gxlated_addr_pa2kva init_state.
Proof. repeat split; try reflexivity. discriminate. Qed.

(** C4, amended. For every well-sized, parseable write to
    [addrxlate_pa2kva], the parsed physical address is accepted exactly
    when it is at most [PAGE_OFFSET]: then the write returns [count] and
    caches [phys_to_virt] of it; an address above [PAGE_OFFSET] is rejected
    with [-EFAULT] and the cached value stays. *)
Theorem pa2kva_store_accepts_up_to_PAGE_OFFSET pf buf sig st s pa :
  mtx2 st = false ->
  well_sized buf ->
  trimmed buf = Some s ->
  kstrto (bits pf) s 0 = (0, pa) ->
  (pa <= PAGE_OFFSET pf ->
   sysfs_write pf SYSFS_FILE2 buf sig st
   = Done (Z.of_nat (List.length buf))
       (set_pa2kva (to_addr_t (bits pf) (phys_to_virt pf pa)) st))
  /\ (PAGE_OFFSET pf < pa ->
      exists st',
        sysfs_write pf SYSFS_FILE2 buf sig st = Done (- EFAULT) st'
        /\ gxlated_addr_pa2kva st' = gxlated_addr_pa2kva st).
Proof.
  intros Hfree Hsize Htrim Hparse. unfold sysfs_write.
  rewrite (store_run pf SYSFS_FILE2 buf _ sig st s Hfree Htrim).
  rewrite well_sized_check by assumption. rewrite Hparse.
  change (0 <? 0) with false. cbv iota. cbn [in_range].
  split; intros Hpa.
  - assert (Hc : (pa >? PAGE_OFFSET pf) = false) by lia. rewrite Hc.
    cbn [negb set_cached translate].
    rewrite to_int_small by (unfold well_sized in Hsize; lia). reflexivity.
  - assert (Hc : (pa >? PAGE_OFFSET pf) = true) by lia. rewrite Hc.
    cbn [negb]. eexists. split; [reflexivity|]. reflexivity.
Qed.

Lemma pa2kva_store_accepts_up_to_PAGE_OFFSET_witness :
  sysfs_write arm32 SYSFS_FILE2 (line "0xc0000000") true init_state
  = Done 11 (set_pa2kva 0x80000000 init_state).
Proof.
  apply (pa2kva_store_accepts_up_to_PAGE_OFFSET arm32 (line "0xc0000000") true
           init_state (txt "0xc0000000") 0xC0000000).
  - reflexivity.
  - unfold well_sized, ADDR_MAXLEN. simpl. lia.
  - reflexivity.
  - reflexivity.
  - simpl. lia.
Defined.

(** C5 as stated fails: on the generic path the address equal to
    [high_memory] is accepted and translated. *)
Lemma kva_equal_to_high_memory_is_stored :
  CONFIG_X86 arm32 = false
  /\ kstrto (bits arm32) (txt "0xf0000000") 0 = (0, high_memory arm32)
  /\ sysfs_write arm32 SYSFS_FILE1 (line "0xf0000000") false init_state
     = Done 11 (mkState false false 0x30000000 0).
Proof. repeat split; reflexivity. Qed.

(** C5, amended. Without [CONFIG_X86], for every well-sized, parseable
    write to [addrxlate_kva2pa] the parsed address is accepted exactly when
    it lies between [PAGE_OFFSET] and [high_memory], both included: it then
    returns [count] and caches [virt_to_phys] of it.  An address below
    [PAGE_OFFSET] or above [high_memory] is rejected with [-EFAULT] and the
    cached value stays. *)
Theorem kva2pa_store_accepts_lowmem_inclusive pf buf sig st s kva :
  CONFIG_X86 pf = false ->
  mtx1 st = false ->
  well_sized buf ->
  trimmed buf = Some s ->
  kstrto (bits pf) s 0 = (0, kva) ->
  (PAGE_OFFSET pf <= kva <= to_addr_t (bits pf) (high_memory pf) ->
   sysfs_write pf SYSFS_FILE1 buf sig st
   = Done (Z.of_nat (List.length buf))
       (set_kva2pa (to_addr_t (bits pf) (virt_to_phys pf kva)) st))
  /\ (kva < PAGE_OFFSET pf \/ to_addr_t (bits pf) (high_memory pf) < kva ->
      exists st',
        sysfs_write pf SYSFS_FILE1 buf sig st = Done (- EFAULT) st'
        /\ gxlated_addr_kva2pa st' = gxlated_addr_kva2pa st).
Proof.
  intros Hgeneric Hfree Hsize Htrim Hparse. unfold sysfs_write.
  rewrite (store_run pf SYSFS_FILE1 buf _ sig st s Hfree Htrim).
  rewrite well_sized_check by assumption. rewrite Hparse.
  change (0 <? 0) with false. cbv iota. cbn [in_range].
  unfold kva_check. rewrite Hgeneric.
  split; intros Hkva.
  - assert (Hc : (kva <? PAGE_OFFSET pf)
                 || (kva >? to_addr_t (bits pf) (high_memory pf)) = false)
      by (apply orb_false_intro; lia).
    rewrite Hc. cbn [set_cached translate].
    rewrite to_int_small by (unfold well_sized in Hsize; lia). reflexivity.
  - assert (Hc : (kva <? PAGE_OFFSET pf)
                 || (kva >? to_addr_t (bits pf) (high_memory pf)) = true)
      by (apply orb_true_intro; lia).
    rewrite Hc. eexists. split; reflexivity.
Qed.

Lemma kva2pa_store_accepts_lowmem_inclusive_witness :
  sysfs_write arm32 SYSFS_FILE1 (line "0xc0000000") false init_state
  = Done 11 (set_kva2pa 0 init_state).
Proof.
  apply (kva2pa_store_accepts_lowmem_inclusive arm32 (line "0xc0000000") false
           init_state (txt "0xc0000000") 0xC0000000).
  - reflexivity.
  - reflexivity.
  - unfold well_sized, ADDR_MAXLEN. simpl. lia.
  - reflexivity.
  - reflexivity.
  - split; apply Z.leb_le; vm_compute; reflexivity.
Defined.

(** C6. Rejection leaves the state untouched (fails on the code): after a
    write rejected with [-EFAULT] the cached value is still the one stored
    before, but the mutex is still locked, so the next [show] sleeps for
    ever, or returns [-ERESTARTSYS] without any text when a signal
    arrives. *)
Theorem show_after_efault_never_prints :
  let stored := mkState false false 0 0xC0001000 in
  let rejected := mkState false true 0 0xC0001000 in
  sysfs_write arm32 SYSFS_FILE2 (line "0x1000") false init_state
  = Done 7 stored
  /\ dev_attr_show arm32 SYSFS_FILE2 false stored
     = Done (11, line "0xc0001000") stored
  /\ sysfs_write arm32 SYSFS_FILE2 (line "0xffffffff") false stored
     = Done (- EFAULT) rejected
  /\ dev_attr_show arm32 SYSFS_FILE2 false rejected = Blocked
  /\ dev_attr_show arm32 SYSFS_FILE2 true rejected
     = Done (- ERESTARTSYS, []) rejected.
Proof. repeat split; reflexivity. Qed.

(** C7 as stated fails: with the 1G/3G split, the lowmem address
    0x90000000 translates to 0x50000000, which [addrxlate_pa2kva] rejects
    as lying above [PAGE_OFFSET]; the text of the address never comes
    back. *)
Lemma round_trip_fails_above_twice_PAGE_OFFSET :
  let pf := arm32_vmsplit_1g in
  let v := 0x90000000 in
  (PAGE_OFFSET pf <= v < high_memory pf)
  /\ kva_check pf v true = true
  /\ virt_to_phys pf v = v - PAGE_OFFSET pf
  /\ phys_to_virt pf (v - PAGE_OFFSET pf) = v
  /\ (sysfs_write pf SYSFS_FILE1 (fmt_addr (bits pf) v) false ;;;
      dev_attr_show pf SYSFS_FILE1 false) init_state
     = Done (11, line "0x50000000") (mkState false false 0x50000000 0)
  /\ sysfs_write pf SYSFS_FILE2 (line "0x50000000") false
       (mkState false false 0x50000000 0)
     = Done (- EFAULT) (mkState false true 0x50000000 0)
  /\ round_trip pf (fmt_addr (bits pf) v) init_state = Blocked.
Proof.
  cbv zeta. repeat split; try reflexivity.
  - apply Z.leb_le. reflexivity.
Qed.

(** C7, amended. Let [v] be an address that passes the validity check of
    [addrxlate_kva2pa], lies in the direct map (where [virt_to_phys]
    subtracts [PAGE_OFFSET] and [phys_to_virt] adds it back) and whose
    physical address is at most [PAGE_OFFSET].  Writing the text of [v] to
    [addrxlate_kva2pa] and reading back gives the text of [v - PAGE_OFFSET];
    writing that text to [addrxlate_pa2kva] and reading back gives the text
    of [v] again. *)
Theorem round_trip_on_direct_map pf v st :
  mtx1 st = false ->
  mtx2 st = false ->
  kva_check pf v true = true ->
  PAGE_OFFSET pf <= v < 2 ^ BITS_PER_LONG (bits pf) ->
  virt_to_phys pf v = v - PAGE_OFFSET pf ->
  phys_to_virt pf (v - PAGE_OFFSET pf) = v ->
  v - PAGE_OFFSET pf <= PAGE_OFFSET pf ->
  let n := Z.of_nat (FMTSPC_width (bits pf)) + 3 in
  round_trip pf (fmt_addr (bits pf) v) st
  = Done (n, (n, fmt_addr (bits pf) (virt_to_phys pf v)),
          n, (n, fmt_addr (bits pf) v))
      (set_pa2kva v (set_kva2pa (v - PAGE_OFFSET pf) st)).
Proof.
  intros Hm1 Hm2 Hvalid Hv Hv2p Hp2v Hpa n.
  assert (Hpa_range : 0 <= v - PAGE_OFFSET pf < 2 ^ BITS_PER_LONG (bits pf))
    by lia.
  unfold round_trip, bind.
  rewrite (write_fmt_addr pf SYSFS_FILE1) by (assumption || lia).
  cbn [in_range]. rewrite Hvalid.
  cbn [translate set_cached]. unfold to_addr_t.
  rewrite Hv2p, Z.mod_small by assumption.
  rewrite show_run by exact Hm1.
  cbn [snd cached set_kva2pa gxlated_addr_kva2pa].
  rewrite (write_fmt_addr pf SYSFS_FILE2) by assumption.
  cbn [in_range].
  assert (Hc : (v - PAGE_OFFSET pf >? PAGE_OFFSET pf) = false) by lia.
  rewrite Hc. cbn [negb translate set_cached]. unfold to_addr_t.
  rewrite Hp2v, Z.mod_small by lia.
  rewrite show_run by exact Hm2.
  reflexivity.
Qed.

Lemma round_trip_on_direct_map_witness :
  round_trip x86_64 (line "0xffff888000001000") init_state
  = Done (19, (19, line "0x0000000000001000"),
          19, (19, line "0xffff888000001000"))
      (mkState false false 0x1000 0xFFFF888000001000).
Proof.
  apply (round_trip_on_direct_map x86_64 0xFFFF888000001000 init_state).
  - reflexivity.
  - reflexivity.
  - reflexivity.
  - split; [apply Z.leb_le | apply Z.ltb_lt]; vm_compute; reflexivity.
  - reflexivity.
  - reflexivity.
  - apply Z.leb_le; vm_compute; reflexivity.
Defined.

(** C8 as stated fails: on a 32-bit build a number too large for the
    address type is reported as [-ERANGE], not [-EINVAL]. *)
Lemma too_large_number_gives_ERANGE :
  well_sized (line "0x100000000")
  /\ trimmed (line "0x100000000") = Some (txt "0x100000000")
  /\ sysfs_write arm32 SYSFS_FILE1 (line "0x100000000") false init_state
     = Done (- ERANGE) init_state
  /\ sysfs_write arm32 SYSFS_FILE2 (line "0x100000000") false init_state
     = Done (- ERANGE) init_state
  /\ - ERANGE <> - EINVAL.
Proof.
  repeat split; try reflexivity; discriminate.
Qed.

(** C8, amended. For every well-sized write whose trimmed text fails to
    parse, [store] returns the status of [kstrtoull]/[kstrtoul] unchanged:
    [-EINVAL] for a malformed number or [-ERANGE] for one too large for the
    address type, never anything else; the state is as before the call. *)
Theorem parse_failure_status pf a buf sig st s r v :
  locked (attr_mutex a) st = false ->
  well_sized buf ->
  trimmed buf = Some s ->
  kstrto (bits pf) s 0 = (r, v) ->
  r <> 0 ->
  sysfs_write pf a buf sig st = Done r st
  /\ (r = - EINVAL \/ r = - ERANGE).
Proof.
  intros Hfree Hsize Htrim Hparse Hfail.
  destruct (kstrto_status _ _ _ _ _ Hparse) as [-> | Hst]; [contradiction|].
  assert (Hneg : (r <? 0) = true)
    by (destruct Hst as [[-> _] | [-> _]]; reflexivity).
  split.
  - unfold sysfs_write.
    rewrite (store_run pf a buf _ sig st s Hfree Htrim).
    rewrite well_sized_check by assumption. now rewrite Hparse, Hneg.
  - destruct Hst as [[-> _] | [-> _]]; auto.
Qed.

Lemma parse_failure_status_witness :
  sysfs_write arm64 SYSFS_FILE1 (line "0xffffzz") false init_state
  = Done (- EINVAL) init_state
  /\ (- EINVAL = - EINVAL \/ - EINVAL = - ERANGE).
Proof.
  apply (parse_failure_status arm64 SYSFS_FILE1 (line "0xffffzz") false
           init_state (txt "0xffffzz") (- EINVAL) 0).
  - reflexivity.
  - unfold well_sized, ADDR_MAXLEN. simpl. lia.
  - reflexivity.
  - reflexivity.
  - discriminate.
Defined.

(** C9. Read (fails on the code): [show] does not always return the text
    of the last successfully stored translation.  On [addrxlate_pa2kva],
    after a write that succeeds and a write rejected with [-EFAULT], both
    of which return, the last stored translation is 0xc0001000 and is
    still cached, but the mutex is left locked: [show] then sleeps for
    ever, or returns [-ERESTARTSYS] with no text when a signal arrives.
    The same happens on [addrxlate_kva2pa] before any successful write,
    where the text of zero is never printed. *)
Theorem show_never_returns_after_efault_history :
  let ws2 := [mkWrite SYSFS_FILE2 (line "0x1000") false;
              mkWrite SYSFS_FILE2 (line "0xffffffff") false] in
  let st2 := mkState false true 0 0xC0001000 in
  let ws1 := [mkWrite SYSFS_FILE1 (line "0x1000") false] in
  let st1 := mkState true false 0 0 in
  run_writes arm32 ws2 init_state = Done tt st2
  /\ last_stored arm32 SYSFS_FILE2 ws2 init_state 0 = 0xC0001000
  /\ cached SYSFS_FILE2 st2 = 0xC0001000
  /\ dev_attr_show arm32 SYSFS_FILE2 false st2 = Blocked
  /\ dev_attr_show arm32 SYSFS_FILE2 true st2 = Done (- ERESTARTSYS, []) st2
  /\ run_writes arm32 ws1 init_state = Done tt st1
  /\ last_stored arm32 SYSFS_FILE1 ws1 init_state 0 = 0
  /\ dev_attr_show arm32 SYSFS_FILE1 false st1 = Blocked
  /\ dev_attr_show arm32 SYSFS_FILE1 true st1 = Done (- ERESTARTSYS, []) st1.
Proof. cbv zeta. repeat split; reflexivity. Qed.

(** C10. One-byte writes (fails on the code): a one-byte write does not
    always report a parse error.  When the single byte is NUL nothing is
    copied, the string is already empty and the write of the terminator
    lands at [s_addr[-1]], on either attribute; no parse error is
    reported. *)
Lemma one_NUL_byte_writes_outside :
  sysfs_write arm64 SYSFS_FILE1 [NUL] false init_state
  = Undefined (WriteOutside (-1)) (mkState true false 0 0)
  /\ sysfs_write arm64 SYSFS_FILE2 [NUL] false init_state
     = Undefined (WriteOutside (-1)) (mkState false true 0 0).
Proof. split; reflexivity. Qed.

(** * Further properties of the module *)

(** ** Which writes stay inside [s_addr] *)

Lemma cstring_nul_free buf : nul_free (cstring buf).
Proof.
  induction buf as [|c buf IH]; [constructor|].
  cbn [cstring]. destruct (Ascii.eqb c NUL) eqn:Hc; [constructor|].
  constructor; [now apply Ascii.eqb_neq | exact IH].
Qed.


(** [strncpy] only looks at the C string in the source buffer. *)
Lemma strncpy_bytes_cstring n buf :
  strncpy_bytes n buf = strncpy_bytes n (cstring buf).
Proof.
  revert buf. induction n as [|n IH]; intros buf; [reflexivity|].
  destruct buf as [|c buf]; [reflexivity|].
  cbn [strncpy_bytes cstring].
  destruct (Ascii.eqb c NUL) eqn:Hc; [reflexivity|].
  cbn [strncpy_bytes]. rewrite Hc. now rewrite IH.
Qed.

Lemma trimmed_cstring buf : trimmed buf = trimmed (cstring buf).
Proof. unfold trimmed, strncpy. now rewrite strncpy_bytes_cstring. Qed.

Lemma strncpy_bytes_long n s :
  nul_free s -> (n <= List.length s)%nat -> strncpy_bytes n s = firstn n s.
Proof.
  revert s. induction n as [|n IH]; intros s Hs Hlen; [reflexivity|].
  destruct s as [|c s]; [simpl in Hlen; lia|].
  inversion Hs as [|? ? Hc Hs']; subst. simpl in Hlen.
  cbn [strncpy_bytes firstn]. apply Ascii.eqb_neq in Hc. rewrite Hc.
  now rewrite IH by (assumption || lia).
Qed.

Lemma strlen_nul_free s : nul_free s -> strlen s = None.
Proof.
  induction 1 as [|c s Hc Hs IH]; [reflexivity|].
  cbn [strlen]. apply Ascii.eqb_neq in Hc. now rewrite Hc, IH.
Qed.

Lemma nul_free_firstn n s : nul_free s -> nul_free (firstn n s).
Proof.
  intros Hs. revert n. induction Hs as [|c s Hc Hs IH]; intros n.
  - rewrite firstn_nil. constructor.
  - destruct n as [|n]; [constructor|].
    cbn [firstn]. constructor; [exact Hc | apply IH].
Qed.

(** The array [s_addr] after [memset] and [strncpy], by the length of the
    C string written. *)
Lemma s_addr_short buf :
  (List.length (cstring buf) < 20)%nat ->
  strncpy (memset NUL (Z.to_nat ADDR_MAXLEN)) buf (Z.to_nat ADDR_MAXLEN)
  = cstring buf ++ repeat NUL (20 - List.length (cstring buf)).
Proof.
  intros Hlen. unfold strncpy. change (Z.to_nat ADDR_MAXLEN) with 20%nat.
  rewrite strncpy_bytes_cstring.
  rewrite strncpy_bytes_nul_free by (apply cstring_nul_free || lia).
  change (skipn 20 (memset NUL 20)) with (@nil ascii).
  now rewrite app_nil_r.
Qed.

Lemma s_addr_long buf :
  (20 <= List.length (cstring buf))%nat ->
  strlen (strncpy (memset NUL (Z.to_nat ADDR_MAXLEN)) buf
            (Z.to_nat ADDR_MAXLEN)) = None.
Proof.
  intros Hlen. unfold strncpy. change (Z.to_nat ADDR_MAXLEN) with 20%nat.
  rewrite strncpy_bytes_cstring.
  rewrite strncpy_bytes_long by (apply cstring_nul_free || lia).
  change (skipn 20 (memset NUL 20)) with (@nil ascii).
  rewrite app_nil_r. apply strlen_nul_free, nul_free_firstn, cstring_nul_free.
Qed.

(** The text handed to [kstrtoull], for every input: the C string written
    without its last character, provided that string has 1 to 19
    characters. *)
Lemma trimmed_spec buf :
  trimmed buf =
    if (1 <=? List.length (cstring buf))%nat
       && (List.length (cstring buf) <=? 19)%nat
    then Some (removelast (cstring buf)) else None.
Proof.
  destruct (cstring buf) as [|c t] eqn:Ht.
  - rewrite trimmed_cstring, Ht. reflexivity.
  - destruct (List.length (c :: t) <=? 19)%nat eqn:Hlen.
    + apply Nat.leb_le in Hlen. cbn [Nat.leb andb List.length].
      assert (Hne : c :: t <> []) by discriminate.
      rewrite trimmed_cstring, Ht.
      rewrite (app_removelast_last NUL Hne) at 1.
      assert (Hfree : nul_free (c :: t))
        by (rewrite <- Ht; apply cstring_nul_free).
      rewrite (app_removelast_last NUL Hne) in Hfree.
      apply Forall_app in Hfree. destruct Hfree as [Hinit Hlast].
      apply trimmed_drops_last.
      * exact Hinit.
      * now inversion Hlast.
      * assert (Hl : List.length (c :: t)
                     = S (List.length (removelast (c :: t)))).
        { rewrite (app_removelast_last NUL Hne) at 1.
          rewrite length_app. simpl List.length. lia. }
        lia.
    + apply Nat.leb_gt in Hlen. rewrite andb_false_r.
      unfold trimmed. rewrite s_addr_long; [reflexivity|].
      rewrite Ht. lia.
Qed.

(** With the mutex free, what stops a [store] before it returns. *)
Lemma store_undefined_kind pf a buf count sig st :
  locked (attr_mutex a) st = false ->
  let s_addr := strncpy (memset NUL (Z.to_nat ADDR_MAXLEN)) buf
                        (Z.to_nat ADDR_MAXLEN) in
  (strlen s_addr = None ->
   dev_attr_store pf a buf count sig st = Undefined ReadPastEnd (holding a st))
  /\ (forall n, strlen s_addr = Some n ->
        array_set s_addr (Z.of_nat n - 1) NUL = None ->
        dev_attr_store pf a buf count sig st
        = Undefined (WriteOutside (Z.of_nat n - 1)) (holding a st)).
Proof.
  intros Hfree s_addr; subst s_addr; split; [intros Hlen | intros n Hlen Hset];
    destruct a; simpl in Hfree |- *;
    [unfold addrxlate_kva2pa_store | unfold addrxlate_pa2kva_store
     | unfold addrxlate_kva2pa_store | unfold addrxlate_pa2kva_store];
    unfold bind, mutex_lock_interruptible, kstrlen, kstore; simpl locked;
    rewrite Hfree; cbn [Z.eqb negb]; rewrite Hlen; try rewrite Hset;
    reflexivity.
Qed.

(** A C string of 20 or more characters makes [strlen] leave the array. *)
Lemma store_leaves_s_addr pf a buf count sig st :
  locked (attr_mutex a) st = false ->
  ((20 <= List.length (cstring buf))%nat ->
   dev_attr_store pf a buf count sig st
   = Undefined ReadPastEnd (holding a st))
  /\ (cstring buf = [] ->
      dev_attr_store pf a buf count sig st
      = Undefined (WriteOutside (-1)) (holding a st)).
Proof.
  intros Hfree.
  destruct (store_undefined_kind pf a buf count sig st Hfree) as [Hread Hwrite].
  split.
  - intros Hlong. apply Hread. now apply s_addr_long.
  - intros Hempty. apply (Hwrite 0%nat).
    + rewrite s_addr_short by (rewrite Hempty; simpl; lia).
      rewrite Hempty. reflexivity.
    + reflexivity.
Qed.

(** X1. With its mutex free, a [store] stays inside [s_addr] exactly when
    the C string written (the bytes before the first NUL) has 1 to 19
    characters.  An empty string makes it write [s_addr[-1]], a string of
    20 or more characters makes [strlen] run past the array; both happen
    before [count] is looked at and with the mutex held. *)
Theorem store_stays_in_s_addr pf a buf count sig st :
  locked (attr_mutex a) st = false ->
  (cstring buf = [] ->
   dev_attr_store pf a buf count sig st
   = Undefined (WriteOutside (-1)) (holding a st))
  /\ ((20 <= List.length (cstring buf))%nat ->
      dev_attr_store pf a buf count sig st
      = Undefined ReadPastEnd (holding a st))
  /\ ((1 <= List.length (cstring buf) <= 19)%nat ->
      exists r st', dev_attr_store pf a buf count sig st = Done r st').
Proof.
  intros Hfree.
  destruct (store_leaves_s_addr pf a buf count sig st Hfree) as [Hlong Hempty].
  split; [exact Hempty | split; [exact Hlong|]].
  intros Hlen.
  assert (Htrim : trimmed buf = Some (removelast (cstring buf))).
  { rewrite trimmed_spec.
    destruct (1 <=? List.length (cstring buf))%nat eqn:H1;
      [|apply Nat.leb_gt in H1; lia].
    destruct (List.length (cstring buf) <=? 19)%nat eqn:H2;
      [reflexivity | apply Nat.leb_gt in H2; lia]. }
  rewrite (store_run pf a buf count sig st _ Hfree Htrim).
  destruct ((count =? 0) || (count >? ADDR_MAXLEN)); [eauto|].
  destruct (kstrto _ _ _) as [r addr].
  destruct (r <? 0); [eauto|].
  destruct (in_range pf a addr); eauto.
Qed.

Lemma store_stays_in_s_addr_witness :
  dev_attr_store arm64 SYSFS_FILE2 (txt "0123456789012345678901234") 25 false
    init_state
  = Undefined ReadPastEnd (holding SYSFS_FILE2 init_state).
Proof.
  apply (store_stays_in_s_addr arm64 SYSFS_FILE2
           (txt "0123456789012345678901234") 25 false init_state).
  - reflexivity.
  - simpl. lia.
Defined.



(** X3. What a [store] can return: [-ERESTARTSYS], [-EINVAL], [-ERANGE],
    [-EFAULT], or the number of bytes written, which is then between 1 and
    20 and the mutex is free again.  It never returns 0 and never accepts
    only part of a write. *)
Theorem store_return_values pf a buf sig st r st' :
  sysfs_write pf a buf sig st = Done r st' ->
  r <> 0
  /\ (r < 0 ->
      r = - ERESTARTSYS \/ r = - EINVAL \/ r = - ERANGE \/ r = - EFAULT)
  /\ (0 < r ->
      r = Z.of_nat (List.length buf) /\ r <= ADDR_MAXLEN
      /\ locked (attr_mutex a) st' = false).
Proof.
  intros Hrun. apply store_done_inv in Hrun.
  destruct Hrun as [(_ & -> & ->) | (Hfree & s & _ & Hcase)].
  { repeat split; try discriminate; auto. }
  destruct Hcase as [(-> & ->) | [(-> & ->) | [(-> & -> & _) | Hok]]];
    try (repeat split; try discriminate; auto 6; fail).
  destruct Hok as (-> & Hr & addr & _ & _ & ->).
  split; [lia|]. split; [lia|]. intros _.
  split; [reflexivity|]. split; [lia|].
  now rewrite locked_set_cached.
Qed.

Lemma store_return_values_witness :
  7 <> 0
  /\ (7 < 0 ->
      7 = - ERESTARTSYS \/ 7 = - EINVAL \/ 7 = - ERANGE \/ 7 = - EFAULT)
  /\ (0 < 7 ->
      7 = Z.of_nat (List.length (line "0x1000")) /\ 7 <= ADDR_MAXLEN
      /\ locked (attr_mutex SYSFS_FILE2) (mkState false false 0 0xC0001000)
         = false).
Proof.
  apply (store_return_values arm32 SYSFS_FILE2 (line "0x1000") false
           init_state 7 (mkState false false 0 0xC0001000)).
  reflexivity.
Defined.

(** X4. The two attributes share nothing: however a [store] or a [show] on
    one attribute ends, the other attribute's cached translation and mutex
    are as before. *)
Theorem other_attribute_untouched pf a buf count sig st :
  match dev_attr_store pf a buf count sig st with
  | Done _ st' | Undefined _ st' =>
      cached (other a) st' = cached (other a) st
      /\ locked (attr_mutex (other a)) st' = locked (attr_mutex (other a)) st
  | Blocked => True
  end
  /\ match dev_attr_show pf a sig st with
     | Done _ st' | Undefined _ st' =>
         cached (other a) st' = cached (other a) st
         /\ locked (attr_mutex (other a)) st'
            = locked (attr_mutex (other a)) st
     | Blocked => True
     end.
Proof.
  destruct (locked (attr_mutex a) st) eqn:Hlock; split.
  - rewrite store_contended by assumption. destruct sig; auto.
  - rewrite show_contended by assumption. destruct sig; auto.
  - destruct (trimmed buf) as [s|] eqn:Htrim.
    + rewrite (store_run pf a buf count sig st s Hlock Htrim).
      destruct ((count =? 0) || (count >? ADDR_MAXLEN)); [auto|].
      destruct (kstrto _ _ _) as [r addr].
      destruct (r <? 0); [auto|].
      destruct (in_range pf a addr); destruct st, a; auto.
    + destruct (store_outside_array pf a buf count sig st Hlock Htrim)
        as [u ->].
      destruct st, a; auto.
  - rewrite show_run by assumption. auto.
Qed.

(** X5. [show] only reads: when it returns, the module state is as before,
    so a second [show] returns the same again.  It returns either
    [-ERESTARTSYS] with nothing written, or the length of the text it
    wrote, which always fits [ADDR_MAXLEN - 1] characters: [snprintf] never
    truncates. *)
Theorem show_changes_nothing pf a sig st :
  dev_attr_show pf a sig st = Blocked
  \/ exists n text,
       dev_attr_show pf a sig st = Done (n, text) st
       /\ (dev_attr_show pf a sig ;;; dev_attr_show pf a sig) st
          = Done (n, text) st
       /\ ((n = - ERESTARTSYS /\ text = [])
           \/ (n = Z.of_nat (List.length text) /\ n < ADDR_MAXLEN)).
Proof.
  destruct (locked (attr_mutex a) st) eqn:Hlock.
  - destruct sig.
    + right. exists (- ERESTARTSYS), [].
      unfold bind. rewrite !show_contended by assumption. auto.
    + left. now rewrite show_contended.
  - right. exists (Z.of_nat (FMTSPC_width (bits pf)) + 3),
                  (fmt_addr (bits pf) (cached a st)).
    unfold bind. rewrite !show_run by assumption.
    split; [reflexivity|]. split; [reflexivity|]. right.
    rewrite fmt_addr_length. split; [reflexivity|].
    unfold ADDR_MAXLEN. destruct (bits pf); simpl; lia.
Qed.

(** ** Writes in sequence *)

Lemma locked_attribute_step pf a b buf sig st r st' :
  locked (attr_mutex a) st = true ->
  sysfs_write pf b buf sig st = Done r st' ->
  locked (attr_mutex a) st' = true /\ cached a st' = cached a st
  /\ (attribute_eqb a b = true -> r = - ERESTARTSYS).
Proof.
  intros Hheld Hrun. apply store_done_inv in Hrun.
  destruct Hrun as [(_ & -> & ->) | (Hfree & s & _ & Hcase)]; [auto|].
  assert (Hab : attribute_eqb a b = false)
    by (destruct a, b; simpl in *; congruence || reflexivity).
  rewrite Hab.
  destruct Hcase as [(-> & ->) | [(-> & ->) | [(-> & -> & _) | Hok]]].
  - repeat split; auto; discriminate.
  - repeat split; auto; discriminate.
  - repeat split; try discriminate; destruct st, a, b; simpl in *;
      congruence || reflexivity.
  - destruct Hok as (_ & _ & addr & _ & _ & ->).
    repeat split; try discriminate; destruct st, a, b; simpl in *;
      congruence || reflexivity.
Qed.

(** X6. A locked mutex is never unlocked by a later write: once an
    attribute's mutex is left locked (as the [-EFAULT] return leaves it),
    then after any sequence of writes that all return, to either attribute,
    the mutex is still locked and the attribute's cached translation has
    not changed. *)
Theorem locked_attribute_stays_locked pf a ws : forall st st',
  locked (attr_mutex a) st = true ->
  run_writes pf ws st = Done tt st' ->
  locked (attr_mutex a) st' = true /\ cached a st' = cached a st.
Proof.
  induction ws as [|w ws IH]; intros st st' Hheld Hrun.
  - injection Hrun as <-. auto.
  - cbn [run_writes] in Hrun. unfold bind in Hrun.
    destruct (sysfs_write pf (w_attr w) (w_buf w) (w_sig w) st)
      as [r st1| |] eqn:Hw; try discriminate.
    destruct (locked_attribute_step pf a _ _ _ _ _ _ Hheld Hw)
      as (Hheld1 & Hcache1 & _).
    destruct (IH st1 st' Hheld1 Hrun) as [Hheld' Hcache'].
    split; [exact Hheld' | congruence].
Qed.

Lemma locked_attribute_stays_locked_witness :
  let rejected := mkState false true 0 0xC0001000 in
  let later := mkState false true 0x2000 0xC0001000 in
  sysfs_write arm32 SYSFS_FILE2 (line "0xffffffff") false
    (mkState false false 0 0xC0001000) = Done (- EFAULT) rejected
  /\ locked (attr_mutex SYSFS_FILE2) later = true
  /\ cached SYSFS_FILE2 later = cached SYSFS_FILE2 rejected.
Proof.
  cbv zeta. split; [reflexivity|].
  apply (locked_attribute_stays_locked arm32 SYSFS_FILE2
           [mkWrite SYSFS_FILE2 (line "0x1000") true;
            mkWrite SYSFS_FILE1 (line "0xc0002000") false;
            mkWrite SYSFS_FILE2 (line "0x0") true]
           (mkState false true 0 0xC0001000)
           (mkState false true 0x2000 0xC0001000)).
  - reflexivity.
  - reflexivity.
Defined.

(** X7. With [CONFIG_X86] the validity of a virtual address is left to
    [virt_addr_valid] alone: a well-sized, parseable write to
    [addrxlate_kva2pa] is accepted exactly when [virt_addr_valid] holds of
    the parsed address, whatever [PAGE_OFFSET] and [high_memory] are;
    otherwise it returns [-EFAULT] and the cached value stays. *)
Theorem kva2pa_store_x86_uses_virt_addr_valid pf buf sig st s kva :
  CONFIG_X86 pf = true ->
  mtx1 st = false ->
  well_sized buf ->
  trimmed buf = Some s ->
  kstrto (bits pf) s 0 = (0, kva) ->
  (virt_addr_valid pf kva = true ->
   sysfs_write pf SYSFS_FILE1 buf sig st
   = Done (Z.of_nat (List.length buf))
       (set_kva2pa (to_addr_t (bits pf) (virt_to_phys pf kva)) st))
  /\ (virt_addr_valid pf kva = false ->
      exists st',
        sysfs_write pf SYSFS_FILE1 buf sig st = Done (- EFAULT) st'
        /\ gxlated_addr_kva2pa st' = gxlated_addr_kva2pa st).
Proof.
  intros Hx86 Hfree Hsize Htrim Hparse. unfold sysfs_write.
  rewrite (store_run pf SYSFS_FILE1 buf _ sig st s Hfree Htrim).
  rewrite well_sized_check by assumption. rewrite Hparse.
  change (0 <? 0) with false. cbv iota. cbn [in_range].
  unfold kva_check. rewrite Hx86.
  split; intros Hvalid; rewrite Hvalid; cbn [negb].
  - cbn [set_cached translate].
    rewrite to_int_small by (unfold well_sized in Hsize; lia). reflexivity.
  - eexists. split; reflexivity.
Qed.

Lemma kva2pa_store_x86_uses_virt_addr_valid_witness :
  exists st',
    sysfs_write x86_64 SYSFS_FILE1 (line "0xffff888100000000") false
      init_state = Done (- EFAULT) st'
    /\ gxlated_addr_kva2pa st' = gxlated_addr_kva2pa init_state.
Proof.
  apply (kva2pa_store_x86_uses_virt_addr_valid x86_64
           (line "0xffff888100000000") false init_state
           (txt "0xffff888100000000") 0xFFFF888100000000).
  - reflexivity.
  - reflexivity.
  - unfold well_sized, ADDR_MAXLEN. simpl. lia.
  - reflexivity.
  - reflexivity.
  - reflexivity.
Defined.

(** X8. Whatever [show] prints can be written back: the text printed for
    one attribute is, for either attribute's [store], a well-sized line
    that is parsed to exactly the value shown.  It is never refused with
    [-EINVAL] or [-ERANGE] and never leaves [s_addr]; only the range check
    decides. *)
Theorem shown_text_is_valid_input pf a b sig st :
  locked (attr_mutex a) st = false ->
  locked (attr_mutex b) st = false ->
  0 <= cached a st < 2 ^ BITS_PER_LONG (bits pf) ->
  exists n text,
    dev_attr_show pf a sig st = Done (n, text) st
    /\ requested pf text = cached a st
    /\ sysfs_write pf b text sig st =
         if in_range pf b (cached a st)
         then Done n (set_cached b (translate pf b (cached a st)) st)
         else Done (- EFAULT) (holding b st).
Proof.
  intros Ha Hb Hrange.
  exists (Z.of_nat (FMTSPC_width (bits pf)) + 3),
         (fmt_addr (bits pf) (cached a st)).
  split; [now apply show_run|]. split.
  - unfold requested. rewrite trimmed_fmt_addr, kstrto_hex by assumption.
    reflexivity.
  - now apply write_fmt_addr.
Qed.

Lemma shown_text_is_valid_input_witness :
  let st := mkState false false 0x1000 0xC0001000 in
  exists n text,
    dev_attr_show arm32 SYSFS_FILE2 false st = Done (n, text) st
    /\ requested arm32 text = cached SYSFS_FILE2 st
    /\ sysfs_write arm32 SYSFS_FILE1 text false st =
         if in_range arm32 SYSFS_FILE1 (cached SYSFS_FILE2 st)
         then Done n (set_cached SYSFS_FILE1
                        (translate arm32 SYSFS_FILE1 (cached SYSFS_FILE2 st))
                        st)
         else Done (- EFAULT) (holding SYSFS_FILE1 st).
Proof.
  apply (shown_text_is_valid_input arm32 SYSFS_FILE2 SYSFS_FILE1 false
           (mkState false false 0x1000 0xC0001000)).
  - reflexivity.
  - reflexivity.
  - split; [apply Z.leb_le | apply Z.ltb_lt]; vm_compute; reflexivity.
Defined.

(** X9. The round trip in the other direction.  Let [pa] be a physical
    address at most [PAGE_OFFSET] whose direct-map address
    [pa + PAGE_OFFSET] fits the address width and passes the validity check
    of [addrxlate_kva2pa].  Writing the text of [pa] to [addrxlate_pa2kva]
    and reading back gives the text of [pa + PAGE_OFFSET]; writing that to
    [addrxlate_kva2pa] and reading back gives the text of [pa] again. *)
Theorem round_trip_back_on_direct_map pf pa st :
  mtx1 st = false ->
  mtx2 st = false ->
  0 <= pa <= PAGE_OFFSET pf ->
  pa + PAGE_OFFSET pf < 2 ^ BITS_PER_LONG (bits pf) ->
  phys_to_virt pf pa = pa + PAGE_OFFSET pf ->
  virt_to_phys pf (pa + PAGE_OFFSET pf) = pa ->
  kva_check pf (pa + PAGE_OFFSET pf) true = true ->
  let n := Z.of_nat (FMTSPC_width (bits pf)) + 3 in
  round_trip_back pf (fmt_addr (bits pf) pa) st
  = Done (n, (n, fmt_addr (bits pf) (phys_to_virt pf pa)),
          n, (n, fmt_addr (bits pf) pa))
      (set_kva2pa pa (set_pa2kva (pa + PAGE_OFFSET pf) st)).
Proof.
  intros Hm1 Hm2 Hpa Hfit Hp2v Hv2p Hvalid n.
  unfold round_trip_back, bind.
  rewrite (write_fmt_addr pf SYSFS_FILE2) by (assumption || lia).
  cbn [in_range].
  assert (Hc : (pa >? PAGE_OFFSET pf) = false) by lia.
  rewrite Hc. cbn [negb translate set_cached]. unfold to_addr_t.
  rewrite Hp2v, Z.mod_small by lia.
  rewrite show_run by exact Hm2.
  cbn [snd cached set_pa2kva gxlated_addr_pa2kva].
  rewrite (write_fmt_addr pf SYSFS_FILE1) by (assumption || lia).
  cbn [in_range]. rewrite Hvalid.
  cbn [translate set_cached]. unfold to_addr_t.
  rewrite Hv2p, Z.mod_small by lia.
  rewrite show_run by exact Hm1.
  reflexivity.
Qed.

Lemma round_trip_back_on_direct_map_witness :
  round_trip_back arm32 (line "0x00001000") init_state
  = Done (11, (11, line "0xc0001000"), 11, (11, line "0x00001000"))
      (mkState false false 0x1000 0xC0001000).
Proof.
  apply (round_trip_back_on_direct_map arm32 0x1000 init_state).
  - reflexivity.
  - reflexivity.
  - split; apply Z.leb_le; vm_compute; reflexivity.
  - apply Z.ltb_lt; vm_compute; reflexivity.
  - reflexivity.
  - reflexivity.
  - reflexivity.
Defined.

(** A [store] acts on the state in one of three ways, fixed by the
    platform, the attribute and the bytes written. *)
Lemma store_uniform pf a buf sig :
  trimmed buf <> None ->
  exists r g,
    (forall st, locked (attr_mutex a) st = false ->
                sysfs_write pf a buf sig st = Done r (g st))
    /\ (g = (fun st => st) \/ g = holding a \/ exists v, g = set_cached a v).
Proof.
  intros Htrim. destruct (trimmed buf) as [s|] eqn:Hs; [|contradiction].
  unfold sysfs_write.
  destruct ((Z.of_nat (List.length buf) =? 0)
            || (Z.of_nat (List.length buf) >? ADDR_MAXLEN)) eqn:Hsize.
  { exists (- EINVAL), (fun st => st). split; [|auto].
    intros st Hfree. rewrite (store_run pf a buf _ sig st s Hfree Hs).
    now rewrite Hsize. }
  destruct (kstrto (bits pf) s 0) as [r0 addr] eqn:Hparse.
  destruct (r0 <? 0) eqn:Hneg.
  { exists r0, (fun st => st). split; [|auto].
    intros st Hfree. rewrite (store_run pf a buf _ sig st s Hfree Hs).
    now rewrite Hsize, Hparse, Hneg. }
  destruct (in_range pf a addr) eqn:Hrange.
  - exists (to_int (Z.of_nat (List.length buf))),
           (set_cached a (translate pf a addr)).
    split; [|eauto].
    intros st Hfree. rewrite (store_run pf a buf _ sig st s Hfree Hs).
    now rewrite Hsize, Hparse, Hneg, Hrange.
  - exists (- EFAULT), (holding a). split; [|auto].
    intros st Hfree. rewrite (store_run pf a buf _ sig st s Hfree Hs).
    now rewrite Hsize, Hparse, Hneg, Hrange.
Qed.

Lemma sysfs_write_done_trimmed pf a buf sig st r st' :
  locked (attr_mutex a) st = false ->
  sysfs_write pf a buf sig st = Done r st' -> trimmed buf <> None.
Proof.
  intros Hfree Hrun Hnone.
  destruct (store_outside_array pf a buf (Z.of_nat (List.length buf)) sig st
              Hfree Hnone) as [u Hu].
  unfold sysfs_write in Hrun. rewrite Hu in Hrun. discriminate.
Qed.

(** X10. Writes to the two attributes commute: if a write to one attribute
    followed by a write to the other both return, then in the opposite
    order they return the same two values and leave the same state. *)
Theorem writes_to_different_attributes_commute pf w1 w2 st r1 r2 st' :
  w_attr w2 = other (w_attr w1) ->
  write_twice pf w1 w2 st = Done (r1, r2) st' ->
  write_twice pf w2 w1 st = Done (r2, r1) st'.
Proof.
  destruct w1 as [a1 b1 s1], w2 as [a2 b2 s2]. cbn [w_attr w_buf w_sig].
  intros -> Hrun. unfold write_twice, bind in *. cbn [w_attr w_buf w_sig] in *.
  destruct (sysfs_write pf a1 b1 s1 st) as [x1 st1| |] eqn:H1;
    try discriminate.
  destruct (sysfs_write pf (other a1) b2 s2 st1) as [x2 st2| |] eqn:H2;
    try discriminate.
  injection Hrun as -> -> ->.
  destruct (locked (attr_mutex a1) st) eqn:L1.
  - (* the first write was interrupted *)
    unfold sysfs_write in H1. rewrite store_contended in H1 by assumption.
    destruct s1; [|discriminate]. injection H1 as <- <-.
    rewrite H2.
    assert (L1' : locked (attr_mutex a1) st' = true).
    { exact (proj1 (locked_attribute_step pf a1 _ _ _ _ _ _ L1 H2)). }
    unfold sysfs_write. now rewrite store_contended by assumption.
  - destruct (store_uniform pf a1 b1 s1
                (sysfs_write_done_trimmed _ _ _ _ _ _ _ L1 H1))
      as (q1 & g1 & Hg1 & Hkind1).
    rewrite Hg1 in H1 by assumption. injection H1 as <- <-.
    assert (Hother1 : forall st0,
              locked (attr_mutex (other a1)) (g1 st0)
              = locked (attr_mutex (other a1)) st0).
    { intros [m1 m2 c1 c2].
      destruct Hkind1 as [-> | [-> | [v ->]]]; destruct a1; reflexivity. }
    destruct (locked (attr_mutex (other a1)) st) eqn:L2.
    + (* the second write was interrupted *)
      unfold sysfs_write in H2.
      rewrite store_contended in H2 by (now rewrite Hother1).
      destruct s2; [|discriminate]. injection H2 as <- <-.
      unfold sysfs_write at 1. rewrite store_contended by assumption.
      now rewrite Hg1.
    + destruct (store_uniform pf (other a1) b2 s2
                  (sysfs_write_done_trimmed _ _ _ _ _ _ _
                     (eq_trans (Hother1 st) L2) H2))
        as (q2 & g2 & Hg2 & Hkind2).
      rewrite Hg2 in H2 by (now rewrite Hother1). injection H2 as <- <-.
      rewrite Hg2 by assumption.
      assert (Hother2 : locked (attr_mutex a1) (g2 st) = false).
      { destruct st as [m1 m2 c1 c2].
        destruct Hkind2 as [-> | [-> | [v ->]]]; destruct a1; exact L1. }
      rewrite Hg1 by assumption.
      unfold return_. f_equal. destruct st as [m1 m2 c1 c2].
      destruct Hkind1 as [-> | [-> | [v1 ->]]];
        destruct Hkind2 as [-> | [-> | [v2 ->]]];
        destruct a1; reflexivity.
Qed.

Lemma writes_to_different_attributes_commute_witness :
  write_twice arm32 (mkWrite SYSFS_FILE2 (line "0x1000") false)
    (mkWrite SYSFS_FILE1 (line "0xbfffffff") false) init_state
  = Done (7, -14) (mkState true false 0 0xC0001000).
Proof.
  apply (writes_to_different_attributes_commute arm32
           (mkWrite SYSFS_FILE1 (line "0xbfffffff") false)
           (mkWrite SYSFS_FILE2 (line "0x1000") false) init_state).
  - reflexivity.
  - reflexivity.
Defined.


(** X13. Writes of more than 20 bytes.  With the mutex free, such a write
    is answered with [-EINVAL], the state unchanged, only when a NUL among
    its first 20 bytes ends a C string of 1 to 19 characters, and then
    whatever that string is; when its first 20 bytes hold no NUL, [strlen]
    has left [s_addr] before the length is tested. *)
Theorem oversized_write pf a buf sig st :
  locked (attr_mutex a) st = false ->
  ADDR_MAXLEN < Z.of_nat (List.length buf) ->
  ((1 <= List.length (cstring buf) <= 19)%nat ->
   sysfs_write pf a buf sig st = Done (- EINVAL) st)
  /\ ((20 <= List.length (cstring buf))%nat ->
      sysfs_write pf a buf sig st = Undefined ReadPastEnd (holding a st)).
Proof.
  intros Hfree Hbig. unfold sysfs_write. split.
  - intros Hlen.
    assert (Htrim : trimmed buf = Some (removelast (cstring buf))).
    { rewrite trimmed_spec.
      destruct (1 <=? List.length (cstring buf))%nat eqn:H1;
        [|apply Nat.leb_gt in H1; lia].
      destruct (List.length (cstring buf) <=? 19)%nat eqn:H2;
        [reflexivity | apply Nat.leb_gt in H2; lia]. }
    rewrite (store_run pf a buf _ sig st _ Hfree Htrim).
    assert (Hc : (Z.of_nat (List.length buf) >? ADDR_MAXLEN) = true) by lia.
    now rewrite Hc, orb_true_r.
  - intros Hlong.
    now apply (store_leaves_s_addr pf a buf _ sig st Hfree).
Qed.

Lemma oversized_write_witness :
  sysfs_write arm64 SYSFS_FILE1
    (txt "0x1000" ++ [NUL] ++ txt "0123456789abcdef") false init_state
  = Done (- EINVAL) init_state.
Proof.
  apply (oversized_write arm64 SYSFS_FILE1
           (txt "0x1000" ++ [NUL] ++ txt "0123456789abcdef") false
           init_state).
  - reflexivity.
  - unfold ADDR_MAXLEN. simpl. lia.
  - simpl. lia.
Defined.

(** X14. Only a write that returns success changes a cached translation:
    when a [store] (called with any [count], a [size_t]) returns a negative
    status, and also when it stops on an access outside [s_addr], both
    cached translations are what they were before the call. *)
Theorem failed_store_keeps_translations pf a buf count sig st :
  0 <= count ->
  (forall r st', dev_attr_store pf a buf count sig st = Done r st' ->
                 r < 0 -> forall b, cached b st' = cached b st)
  /\ (forall u st', dev_attr_store pf a buf count sig st = Undefined u st' ->
                    forall b, cached b st' = cached b st).
Proof.
  intros Hcount.
  destruct (locked (attr_mutex a) st) eqn:Hlock.
  { rewrite store_contended by assumption.
    split; intros x st' Hrun; destruct sig; try discriminate.
    injection Hrun as <- <-. reflexivity. }
  destruct (trimmed buf) as [s|] eqn:Htrim.
  2:{ destruct (store_outside_array pf a buf count sig st Hlock Htrim)
        as [u0 ->].
      split; intros x st' Hrun; [discriminate|].
      injection Hrun as <- <-. intros b. apply cached_set_locked. }
  rewrite (store_run pf a buf count sig st s Hlock Htrim).
  destruct ((count =? 0) || (count >? ADDR_MAXLEN)) eqn:Hsize.
  { split; intros x st' Hrun; [|discriminate].
    injection Hrun as <- <-. reflexivity. }
  destruct (kstrto (bits pf) s 0) as [r0 addr].
  destruct (r0 <? 0).
  { split; intros x st' Hrun; [|discriminate].
    injection Hrun as <- <-. reflexivity. }
  destruct (in_range pf a addr).
  - split; intros x st' Hrun; [|discriminate].
    injection Hrun as <- <-. intros Hneg.
    apply orb_false_elim in Hsize.
    rewrite to_int_small in Hneg by lia. lia.
  - split; intros x st' Hrun; [|discriminate].
    injection Hrun as <- <-. intros _ b. apply cached_set_locked.
Qed.

Lemma failed_store_keeps_translations_witness :
  cached SYSFS_FILE1 (mkState false true 0x2000 0xC0001000)
  = cached SYSFS_FILE1 (mkState false false 0x2000 0xC0001000)
  /\ cached SYSFS_FILE2 (mkState false true 0x2000 0xC0001000)
     = cached SYSFS_FILE2 (mkState false false 0x2000 0xC0001000).
Proof.
  split;
    apply (failed_store_keeps_translations arm32 SYSFS_FILE2
             (line "0xffffffff") 11 false
             (mkState false false 0x2000 0xC0001000)) with (r := - EFAULT);
    (discriminate || reflexivity).
Defined.

(** X15. Which returns release the mutex.  A [store] that took a free
    mutex has released it when it returns, unless it returns [-EFAULT]:
    then, and only then, the mutex is still locked.  A [show] that returns
    always leaves the mutex as it found it. *)
Theorem mutex_released_unless_efault pf a buf sig st :
  locked (attr_mutex a) st = false ->
  (forall r st', sysfs_write pf a buf sig st = Done r st' ->
                 (locked (attr_mutex a) st' = true <-> r = - EFAULT))
  /\ (forall r st', dev_attr_show pf a sig st = Done r st' ->
                    locked (attr_mutex a) st' = false).
Proof.
  intros Hfree. split; intros r st' Hrun.
  - rewrite (store_mutex_after pf a buf sig st r st' Hfree Hrun).
    split; [apply Z.eqb_eq | intros ->; reflexivity].
  - rewrite show_run in Hrun by assumption. now injection Hrun as <- <-.
Qed.

Lemma mutex_released_unless_efault_witness :
  locked (attr_mutex SYSFS_FILE1) (mkState true false 0 0) = true
  <-> - EFAULT = - EFAULT.
Proof.
  apply (mutex_released_unless_efault arm64 SYSFS_FILE1 (line "0x1000") false
           init_state).
  - reflexivity.
  - reflexivity.
Defined.



(** ** Histories and one-byte writes *)

(** X17. What [show] prints when it can take its mutex.  With the mutex
    free, [show] of either attribute returns ["0x"], then the cached value
    as 8 (32-bit) or 16 (64-bit) zero-padded hexadecimal digits, then a
    newline, and the length of that text.  After any history of returning
    writes since module load the cached value is the translation stored by
    the last write that succeeded on that attribute, or zero when none
    did; it always fits the address width. *)
Theorem show_prints_last_stored pf ws a sig st :
  run_writes pf ws init_state = Done tt st ->
  locked (attr_mutex a) st = false ->
  let width := match bits pf with W32 => 8%nat | W64 => 16%nat end in
  let v := last_stored pf a ws init_state 0 in
  dev_attr_show pf a sig st
  = Done (Z.of_nat (2 + width + 1), txt "0x" ++ hex_digits width v ++ [LF]) st
  /\ 0 <= v < 2 ^ BITS_PER_LONG (bits pf).
Proof.
  intros Hrun Hfree width v. split.
  - rewrite show_run by assumption. unfold fmt_addr.
    rewrite (run_writes_last_stored pf a ws init_state 0 st) by
      (assumption || (destruct a; reflexivity)).
    subst width v. unfold FMTSPC_width.
    destruct (bits pf); reflexivity.
  - apply last_stored_range. destruct (bits pf); simpl; lia.
Qed.

Lemma show_prints_last_stored_witness :
  let ws := [mkWrite SYSFS_FILE2 (line "0x1000") false;
             mkWrite SYSFS_FILE2 (line "junk") false;
             mkWrite SYSFS_FILE1 (line "0xc0002000") false] in
  let st := mkState false false 0x2000 0xC0001000 in
  run_writes arm32 ws init_state = Done tt st
  /\ dev_attr_show arm32 SYSFS_FILE2 false st
     = Done (11, line "0xc0001000") st.
Proof.
  cbv zeta. split; [reflexivity|].
  apply (show_prints_last_stored arm32
           [mkWrite SYSFS_FILE2 (line "0x1000") false;
            mkWrite SYSFS_FILE2 (line "junk") false;
            mkWrite SYSFS_FILE1 (line "0xc0002000") false]
           SYSFS_FILE2 false (mkState false false 0x2000 0xC0001000)).
  - reflexivity.
  - reflexivity.
Defined.

(** X18. One-byte writes other than NUL.  For every one-byte write whose
    byte is not NUL, on either attribute: the byte is removed before
    parsing, the empty text fails to parse, and the write returns
    [-EINVAL] with the state as before the call.  In no state does such a
    write return success or change anything. *)
Theorem one_byte_store_fails pf a b sig st :
  b <> NUL ->
  (locked (attr_mutex a) st = false ->
   sysfs_write pf a [b] sig st = Done (- EINVAL) st)
  /\ (forall r st', sysfs_write pf a [b] sig st = Done r st' ->
                    r < 0 /\ st' = st).
Proof.
  intros Hb.
  assert (Htrim : trimmed [b] = Some [])
    by (apply (trimmed_drops_last [] b); [constructor | assumption | simpl; lia]).
  assert (Hfree_run : locked (attr_mutex a) st = false ->
                      sysfs_write pf a [b] sig st = Done (- EINVAL) st).
  { intros Hfree. unfold sysfs_write.
    rewrite (store_run pf a [b] _ sig st [] Hfree Htrim).
    destruct (bits pf); reflexivity. }
  split; [exact Hfree_run|].
  intros r st' Hrun.
  destruct (locked (attr_mutex a) st) eqn:Hlock.
  - unfold sysfs_write in Hrun. rewrite store_contended in Hrun by assumption.
    destruct sig; [|discriminate]. injection Hrun as <- <-.
    split; reflexivity.
  - rewrite Hfree_run in Hrun by reflexivity. injection Hrun as <- <-.
    split; reflexivity.
Qed.

Lemma one_byte_store_fails_witness :
  sysfs_write arm32 SYSFS_FILE2 (txt "5") false init_state
  = Done (- EINVAL) init_state.
Proof.
  apply (one_byte_store_fails arm32 SYSFS_FILE2 "5"%char false init_state).
  - discriminate.
  - reflexivity.
Defined.

(** ** Module load and unload *)

Lemma unwind_app l1 : forall l2 held,
  unwind (l1 ++ l2) held =
    match unwind l1 held with
    | Some held' => unwind l2 held'
    | None => None
    end.
Proof.
  induction l1 as [|c l1 IH]; intros l2 held; [reflexivity|].
  destruct c as [p | dev a status | dev a | dev]; cbn [app unwind].
  - destruct (IS_ERR p); apply IH.
  - destruct (existsb _ held); [|reflexivity].
    destruct (status =? 0); apply IH.
  - destruct held as [|top held']; [reflexivity|].
    destruct (resource_eqb top _); [apply IH | reflexivity].
  - destruct held as [|top held']; [reflexivity|].
    destruct (resource_eqb top _); [apply IH | reflexivity].
Qed.

Lemma IS_ERR_nonzero p : IS_ERR p = true -> (p =? 0) = false.
Proof. unfold IS_ERR, MAX_ERRNO. lia. Qed.

Lemma resource_eqb_refl x : resource_eqb x x = true.
Proof.
  destruct x as [d | d a]; cbn [resource_eqb]; rewrite Z.eqb_refl;
    [reflexivity | destruct a; reflexivity].
Qed.

Lemma holds_top x held : existsb (resource_eqb x) (x :: held) = true.
Proof. cbn [existsb]. now rewrite resource_eqb_refl. Qed.

Lemma holds_below x y held :
  existsb (resource_eqb x) held = true ->
  existsb (resource_eqb x) (y :: held) = true.
Proof. cbn [existsb]. intros ->. apply orb_true_r. Qed.

(** The calls [sysfs_addrxlate_init] makes, by the first step that
    fails. *)
Lemma init_log env ds :
  let p := register_result env in
  let c1 := create_status env SYSFS_FILE1 in
  let c2 := create_status env SYSFS_FILE2 in
  sysfs_addrxlate_init env ds =
    if negb (CONFIG_SYSFS env) then (- EINVAL, ds)
    else if IS_ERR p
    then (p, mkDriver p (api_log ds ++ [Call_register p]))
    else if negb (c1 =? 0)
    then (c1, mkDriver p (api_log ds ++ [Call_register p;
                                         Call_create_file p SYSFS_FILE1 c1;
                                         Call_unregister p]))
    else if negb (c2 =? 0)
    then (c2, mkDriver p (api_log ds ++ [Call_register p;
                                         Call_create_file p SYSFS_FILE1 c1;
                                         Call_create_file p SYSFS_FILE2 c2;
                                         Call_remove_file p SYSFS_FILE1;
                                         Call_unregister p]))
    else (0, mkDriver p (api_log ds ++ [Call_register p;
                                        Call_create_file p SYSFS_FILE1 c1;
                                        Call_create_file p SYSFS_FILE2 c2])).
Proof.
  cbv zeta. unfold sysfs_addrxlate_init.
  destruct (CONFIG_SYSFS env); cbn [negb]; [|reflexivity].
  unfold platform_device_register_simple, device_create_file,
    device_remove_file, platform_device_unregister, logged, PTR_ERR.
  cbn [sysfs_demo_platdev api_log].
  destruct (IS_ERR (register_result env)); [reflexivity|].
  destruct (create_status env SYSFS_FILE1 =? 0); cbn [negb];
    [|now rewrite <- !app_assoc].
  destruct (create_status env SYSFS_FILE2 =? 0); cbn [negb];
    now rewrite <- !app_assoc.
Qed.

(** X11. Loading acquires all or nothing.  [sysfs_addrxlate_init] returns
    0 exactly when sysfs is enabled, the platform device is registered and
    both attribute files are created; it then holds the device and the two
    files.  In every other case it returns a nonzero status, has released
    what it had acquired, last acquired first, and holds nothing more than
    before.  No call ever names a device that is not registered. *)
Theorem init_acquires_all_or_nothing env ds held :
  unwind (api_log ds) [] = Some held ->
  let stat := fst (sysfs_addrxlate_init env ds) in
  let ds' := snd (sysfs_addrxlate_init env ds) in
  let p := register_result env in
  unwind (api_log ds') []
  = Some (if stat =? 0
          then AttrFile p SYSFS_FILE2 :: AttrFile p SYSFS_FILE1
               :: Platdev p :: held
          else held)
  /\ (stat = 0 <->
      CONFIG_SYSFS env = true /\ IS_ERR p = false
      /\ create_status env SYSFS_FILE1 = 0
      /\ create_status env SYSFS_FILE2 = 0).
Proof.
  intros Hheld. cbv zeta. rewrite init_log. cbv zeta.
  destruct (CONFIG_SYSFS env); cbn [negb].
  2:{ cbn [fst snd]. split; [now rewrite Hheld|].
      split; [discriminate | intros (H & _); discriminate]. }
  destruct (IS_ERR (register_result env)) eqn:Herr.
  { cbn [fst snd api_log]. rewrite (IS_ERR_nonzero _ Herr). split.
    - rewrite unwind_app, Hheld. cbn [unwind]. now rewrite Herr.
    - apply IS_ERR_nonzero in Herr. apply Z.eqb_neq in Herr.
      split; [contradiction | intros (_ & H & _); discriminate]. }
  destruct (create_status env SYSFS_FILE1 =? 0) eqn:Hc1; cbn [negb].
  2:{ cbn [fst snd api_log]. rewrite Hc1. split.
      - rewrite unwind_app, Hheld. cbn [unwind].
        now rewrite Herr, holds_top, Hc1, resource_eqb_refl.
      - apply Z.eqb_neq in Hc1.
        split; [contradiction | intros (_ & _ & H & _); contradiction]. }
  destruct (create_status env SYSFS_FILE2 =? 0) eqn:Hc2; cbn [negb].
  2:{ cbn [fst snd api_log]. rewrite Hc2. split.
      - rewrite unwind_app, Hheld. cbn [unwind].
        rewrite Herr, holds_top, Hc1.
        rewrite holds_below by apply holds_top.
        now rewrite Hc2, !resource_eqb_refl.
      - apply Z.eqb_neq in Hc2.
        split; [contradiction | intros (_ & _ & _ & H); contradiction]. }
  cbn [fst snd api_log]. change (0 =? 0) with true. cbv iota. split.
  - rewrite unwind_app, Hheld. cbn [unwind].
    rewrite Herr, holds_top, Hc1.
    rewrite holds_below by apply holds_top.
    now rewrite Hc2.
  - apply Z.eqb_eq in Hc1, Hc2. split; auto.
Qed.

Lemma init_acquires_all_or_nothing_witness :
  let env := mkEnv true 0x1000
               (fun a => match a with
                         | SYSFS_FILE1 => 0
                         | SYSFS_FILE2 => -12
                         end) in
  fst (sysfs_addrxlate_init env unloaded) = -12
  /\ api_log (snd (sysfs_addrxlate_init env unloaded))
     = [Call_register 0x1000;
        Call_create_file 0x1000 SYSFS_FILE1 0;
        Call_create_file 0x1000 SYSFS_FILE2 (-12);
        Call_remove_file 0x1000 SYSFS_FILE1;
        Call_unregister 0x1000]
  /\ unwind (api_log (snd (sysfs_addrxlate_init env unloaded))) [] = Some [].
Proof.
  cbv zeta. split; [reflexivity|]. split; [reflexivity|].
  apply (init_acquires_all_or_nothing
           (mkEnv true 0x1000
              (fun a => match a with
                        | SYSFS_FILE1 => 0
                        | SYSFS_FILE2 => -12
                        end)) unloaded []).
  reflexivity.
Defined.

(** X12. Unloading undoes loading.  After a successful
    [sysfs_addrxlate_init], [sysfs_addrxlate_cleanup] removes the two files
    and unregisters the device in the reverse order of their creation, and
    the module holds exactly what it held before it was loaded. *)
Theorem cleanup_releases_what_init_acquired env ds held :
  unwind (api_log ds) [] = Some held ->
  fst (sysfs_addrxlate_init env ds) = 0 ->
  unwind (api_log (sysfs_addrxlate_cleanup (snd (sysfs_addrxlate_init env ds))))
    [] = Some held.
Proof.
  intros Hheld. rewrite init_log. cbv zeta.
  destruct (CONFIG_SYSFS env); cbn [negb fst snd]; [|discriminate].
  destruct (IS_ERR (register_result env)) eqn:Herr.
  { cbn [fst]. intros Hp. apply IS_ERR_nonzero in Herr.
    apply Z.eqb_neq in Herr. contradiction. }
  destruct (create_status env SYSFS_FILE1 =? 0) eqn:Hc1; cbn [negb fst snd].
  2:{ apply Z.eqb_neq in Hc1. intros; contradiction. }
  destruct (create_status env SYSFS_FILE2 =? 0) eqn:Hc2; cbn [negb fst snd].
  2:{ apply Z.eqb_neq in Hc2. intros; contradiction. }
  intros _.
  unfold sysfs_addrxlate_cleanup, device_remove_file,
    platform_device_unregister, logged.
  cbn [sysfs_demo_platdev api_log].
  rewrite <- !app_assoc, unwind_app, Hheld. cbn [app unwind].
  rewrite Herr, holds_top, Hc1.
  rewrite holds_below by apply holds_top.
  now rewrite Hc2, !resource_eqb_refl.
Qed.

Lemma cleanup_releases_what_init_acquired_witness :
  let env := mkEnv true 0x1000 (fun _ => 0) in
  api_log (sysfs_addrxlate_cleanup (snd (sysfs_addrxlate_init env unloaded)))
  = [Call_register 0x1000;
     Call_create_file 0x1000 SYSFS_FILE1 0;
     Call_create_file 0x1000 SYSFS_FILE2 0;
     Call_remove_file 0x1000 SYSFS_FILE2;
     Call_remove_file 0x1000 SYSFS_FILE1;
     Call_unregister 0x1000]
  /\ unwind (api_log (sysfs_addrxlate_cleanup
                        (snd (sysfs_addrxlate_init env unloaded)))) []
     = Some [].
Proof.
  cbv zeta. split; [reflexivity|].
  apply (cleanup_releases_what_init_acquired
           (mkEnv true 0x1000 (fun _ => 0)) unloaded []).
  - reflexivity.
  - reflexivity.
Defined.
